(** * A shallow embedding of the code-RAG ingestion and retrieval pipeline

    The development follows the Python sources
    [chromadb_code_rag.py] (file selection, chunking, batching, chunk
    assembly) and [chromadb_mcp_server.py] (retrieval clean-up and the
    validated tool entry points).

    Python [int] is unbounded and is modelled by [Z]; a Python [str] is a
    sequence of Unicode code points and is modelled by [list N]; a [dict]
    with string keys is a [gmap]; generators that terminate are modelled
    by the list of the values they yield, in order. *)

From Stdlib Require Import ZArith QArith Lia Lqa Ascii String DecimalString.
From Stdlib Require Import DecimalZ DecimalPos.
From Equations Require Import Equations.
From stdpp Require Import gmap list option numbers sorting.

#[local] Open Scope Z_scope.

(** ** Python strings *)

Module PyStr.

(** A string is its sequence of code points. *)
Abbreviation pystr := (list N).

(** Literals of the source are written as Rocq strings and read
    through [py] (all literals of the source are ASCII). *)
Definition py (s : string) : pystr :=
  (fun a => N_of_ascii a) <$> list_ascii_of_string s.

(** [str.isspace] on one code point (CPython's
    [_PyUnicode_IsWhitespace]). *)
Definition is_space (c : N) : bool :=
  ((9 <=? c) && (c <=? 13) || (28 <=? c) && (c <=? 32)
   || (c =? 133) || (c =? 160) || (c =? 5760)
   || (8192 <=? c) && (c <=? 8202)
   || (c =? 8232) || (c =? 8233) || (c =? 8239) || (c =? 8287)
   || (c =? 12288))%N.

(** The line boundaries of [str.splitlines] (CPython's
    [_PyUnicode_IsLinebreak]). *)
Definition is_linebreak (c : N) : bool :=
  ((10 <=? c) && (c <=? 13) || (28 <=? c) && (c <=? 30)
   || (c =? 133) || (c =? 8232) || (c =? 8233))%N.

(** [s.splitlines()]: the line terminators are dropped, ["\r\n"] counts
    as one terminator, and a terminator at the very end does not open a
    further (empty) line. *)
Fixpoint splitlines (s : pystr) : list pystr :=
  match s with
  | [] => []
  | c :: s' =>
      if is_linebreak c then
        match s' with
        | c2 :: s'' =>
            if ((c =? 13) && (c2 =? 10))%N
            then [] :: splitlines s''
            else [] :: splitlines s'
        | [] => [[]]
        end
      else
        match splitlines s' with
        | [] => [[c]]
        | l :: ls => (c :: l) :: ls
        end
  end.

Fixpoint lstrip (s : pystr) : pystr :=
  match s with
  | [] => []
  | c :: s' => if is_space c then lstrip s' else s
  end.

Definition rstrip (s : pystr) : pystr := reverse (lstrip (reverse s)).

(** [s.strip()] *)
Definition strip (s : pystr) : pystr := rstrip (lstrip s).

(** [sep.join(parts)] *)
Fixpoint join (sep : pystr) (parts : list pystr) : pystr :=
  match parts with
  | [] => []
  | [p] => p
  | p :: rest => p ++ sep ++ join sep rest
  end.

(** The literal ["\n"]. *)
Definition NL : pystr := [10%N].

(** Truth value of a string: non-empty. *)
Definition truthy (s : pystr) : bool :=
  match s with [] => false | _ :: _ => true end.

(** [s.startswith(".")] *)
Definition starts_with_dot (s : pystr) : bool :=
  match s with c :: _ => (c =? 46)%N | [] => false end.

(** [str(n)] for an integer: decimal digits, with a leading minus sign
    for negative numbers. *)
Definition str_of_Z (z : Z) : pystr :=
  py (NilZero.string_of_int (Z.to_int z)).

End PyStr.
Import PyStr.

(** ** Python sequences *)

(** [len(l)] as a Python integer. *)
Definition len {A} (l : list A) : Z := Z.of_nat (length l).

(** Normalisation of one bound of a slice [l[lo:hi]]: a negative bound
    counts from the end, and both are clamped to [0 .. len]. *)
Definition slice_index (n i : Z) : Z :=
  if i <? 0 then Z.max 0 (i + n) else Z.min i n.

(** [l[lo:hi]] *)
Definition slice {A} (l : list A) (lo hi : Z) : list A :=
  let lo' := slice_index (len l) lo in
  let hi' := slice_index (len l) hi in
  take (Z.to_nat (hi' - lo')) (drop (Z.to_nat lo') l).

(** ** The chunker: [chunk_text] *)

Module Chunker.

(** The text a window [lines[start:end]] contributes:
    ["\n".join(lines[start:end]).strip()]. *)
Definition window_text (lines : list pystr) (start end_ : Z) : pystr :=
  strip (join NL (slice lines start end_)).

(** The [while start < len(lines)] loop of [chunk_text].  [step] is
    computed once before the loop as [max(1, ...)], so it is at least 1
    and the distance from [start] to [len(lines)] decreases. *)
Equations? chunk_loop (lines : list pystr) (chunk_lines step : Z)
  (Hstep : 1 <= step) (start : Z) : list (pystr * Z * Z)
  by wf (Z.to_nat (len lines - start)) lt :=
chunk_loop lines chunk_lines step Hstep start
  with Z_lt_dec start (len lines) := {
  | left _ =>
      let end_ := Z.min (len lines) (start + chunk_lines) in
      let chunk := window_text lines start end_ in
      (if truthy chunk then [(chunk, start + 1, end_)] else [])
        ++ chunk_loop lines chunk_lines step Hstep (start + step)
  | right _ => [] }.
Proof. lia. Qed.

Definition chunk_text (text : pystr) (chunk_lines chunk_overlap : Z)
  : list (pystr * Z * Z) :=
  let lines := splitlines text in
  match lines with
  | [] => []
  | _ :: _ =>
      let step := Z.max 1 (chunk_lines - chunk_overlap) in
      chunk_loop lines chunk_lines step (Z.le_max_l 1 _) 0
  end.

(** The same loop, recording the window [(start, end)] of every
    iteration instead of running the body's conditional [yield]: the
    candidate windows of [chunk_text]. *)
Equations? window_loop (lines : list pystr) (chunk_lines step : Z)
  (Hstep : 1 <= step) (start : Z) : list (Z * Z)
  by wf (Z.to_nat (len lines - start)) lt :=
window_loop lines chunk_lines step Hstep start
  with Z_lt_dec start (len lines) := {
  | left _ =>
      let end_ := Z.min (len lines) (start + chunk_lines) in
      (start, end_) :: window_loop lines chunk_lines step Hstep (start + step)
  | right _ => [] }.
Proof. lia. Qed.

Definition chunk_windows (text : pystr) (chunk_lines chunk_overlap : Z)
  : list (Z * Z) :=
  let lines := splitlines text in
  match lines with
  | [] => []
  | _ :: _ =>
      let step := Z.max 1 (chunk_lines - chunk_overlap) in
      window_loop lines chunk_lines step (Z.le_max_l 1 _) 0
  end.

(** What the loop body yields for one window. *)
Definition emit (lines : list pystr) (w : Z * Z) : list (pystr * Z * Z) :=
  let chunk := window_text lines w.1 w.2 in
  if truthy chunk then [(chunk, w.1 + 1, w.2)] else [].

(** The same, as the value yielded or [None]. *)
Definition body_yield (lines : list pystr) (w : Z * Z)
  : option (pystr * Z * Z) :=
  let chunk := window_text lines w.1 w.2 in
  if truthy chunk then Some (chunk, w.1 + 1, w.2) else None.

(** Ceiling of [a / b] for positive [b]. *)
Definition cdiv (a b : Z) : Z := (a + b - 1) / b.

End Chunker.

(** ** Batching: [batched] *)

Module Batching.

Section batched.
Context {A : Type}.

(** The [for item in iterable] loop with its accumulator [batch];
    what remains in [batch] after the loop is yielded when
    non-empty. *)
Fixpoint batched_loop (size : Z) (batch : list A) (items : list A)
  : list (list A) :=
  match items with
  | [] => match batch with [] => [] | _ :: _ => [batch] end
  | item :: rest =>
      let batch := batch ++ [item] in
      if len batch >=? size
      then batch :: batched_loop size [] rest
      else batched_loop size batch rest
  end.

Definition batched (iterable : list A) (size : Z) : list (list A) :=
  batched_loop size [] iterable.
End batched.

End Batching.

(** ** Python floats *)

Module PyFloat.

(** A double is a rational, an infinity or a NaN. *)
Inductive pyfloat := Finite (q : Q) | PosInf | NegInf | NaN.

(** The first power of two that no finite double reaches. *)
Definition overflow_threshold : Q := inject_Z (2 ^ 1024).

(** [f * k] where [k] is a positive power of two ([1024] in the
    source): scaling a double by a power of two is exact unless it
    overflows, in which case the result is an infinity. *)
Definition scale (f : pyfloat) (k : Z) : pyfloat :=
  match f with
  | Finite q =>
      let r := (q * inject_Z k)%Q in
      if Qle_bool overflow_threshold r then PosInf
      else if Qle_bool r (- overflow_threshold)%Q then NegInf
      else Finite r
  | other => other
  end.

(** [z > f] for an integer [z]: Python compares an [int] with a
    [float] by value, without rounding the integer. *)
Definition int_gt (z : Z) (f : pyfloat) : bool :=
  match f with
  | Finite q => negb (Qle_bool (inject_Z z) q)
  | PosInf => false
  | NegInf => true
  | NaN => false
  end.

(** The literal [0.0]. *)
Definition zero : pyfloat := Finite 0.

End PyFloat.
Import PyFloat.

(** ** The file selector: [iter_code_files] *)

Module FileSelector.

Inductive OSError := os_error (msg : pystr).

(** A generator run to its end: the items it yields, in order, and the
    exception that leaves it when it does not end normally. *)
Record gen (A : Type) := Gen {
  yielded : list A;
  raised : option OSError
}.
Arguments Gen {A} _ _.
Arguments yielded {A} _.
Arguments raised {A} _.

(** [yield a] before what the rest of the generator does. *)
Definition yield {A : Type} (a : A) (rest : gen A) : gen A :=
  {| yielded := a :: yielded rest; raised := raised rest |}.

(** What the code observes of one [Path] produced by
    [root.rglob("*")].  [path.is_file()] is [S_ISREG] of a [stat()] of
    its own: it answers [False] when that [stat()] fails with ENOENT,
    ENOTDIR, EBADF or ELOOP, and raises any other [OSError] (a
    [PermissionError], say). *)
Record Path := {
  path_str : pystr;                 (* str(path) *)
  is_file : OSError + bool;         (* path.is_file() *)
  relative_parts : list pystr;      (* path.relative_to(root).parts *)
  suffix : pystr;                   (* path.suffix *)
  stat_size : OSError + Z;          (* path.stat().st_size *)
  read_text : OSError + pystr       (* path.read_text(errors="ignore") *)
}.

Section selector.
(** [str.lower], which follows the Unicode case tables. *)
Variable lower : pystr -> pystr.

(** [tree] is the sequence [root.rglob("*")] in traversal order.  The
    call [path.is_file()] stands outside the [try]: when it raises, the
    exception leaves the generator and the rest of the walk is not
    looked at.  The [OSError] of [path.stat()] is caught. *)
Fixpoint iter_code_files (tree : list Path) (extensions : list pystr)
  (include_hidden : bool) (max_file_mb : pyfloat) : gen Path :=
  let max_bytes := scale (scale max_file_mb 1024) 1024 in
  match tree with
  | [] => Gen [] None
  | path :: rest =>
      let continue :=
        iter_code_files rest extensions include_hidden max_file_mb in
      match is_file path with
      | inl exc => Gen [] (Some exc)
      | inr regular =>
          if negb regular then continue
          else if negb include_hidden
                  && existsb starts_with_dot (relative_parts path)
          then continue
          else if match extensions with [] => false | _ :: _ => true end
                  && negb (bool_decide (lower (suffix path) ∈ extensions))
          then continue
          else
            match stat_size path with
            | inr st_size =>
                if int_gt st_size max_bytes then continue
                else yield path continue
            | inl _ => continue
            end
      end
  end.

(** The paths of the walk the loop comes to: those before the first one
    whose [is_file()] raises. *)
Fixpoint reached (tree : list Path) : list Path :=
  match tree with
  | [] => []
  | path :: rest =>
      match is_file path with
      | inl _ => []
      | inr _ => path :: reached rest
      end
  end.

(** What [iter_code_files] requires of a path before yielding it. *)
Definition selected (extensions : list pystr) (include_hidden : bool)
  (max_file_mb : pyfloat) (path : Path) : Prop :=
  is_file path = inr true
  /\ (include_hidden = false ->
      Forall (fun part => starts_with_dot part = false)
        (relative_parts path))
  /\ (extensions <> [] -> lower (suffix path) ∈ extensions)
  /\ exists size : Z,
       stat_size path = inr size
       /\ int_gt size (scale (scale max_file_mb 1024) 1024) = false.
End selector.

End FileSelector.
Import FileSelector.

(** ** The chunk assembler: [Chunk] and [discover_chunks] *)

Module Assembler.
Import Chunker.

Record Chunk := {
  doc_id : pystr;
  document : pystr;
  metadata : gmap pystr pystr
}.

(** [path.relative_to(source_dir).as_posix()] *)
Definition as_posix (parts : list pystr) : pystr := join (py "/") parts.

(** [f"{relative}::{idx}"] *)
Definition make_doc_id (relative : pystr) (idx : nat) : pystr :=
  relative ++ py "::" ++ str_of_Z (Z.of_nat idx).

(** The line range recorded in a chunk's metadata. *)
Definition line_range (ch : Chunk) : option pystr * option pystr :=
  (metadata ch !! py "start_line", metadata ch !! py "end_line").

Section assembler.
Variable lower : pystr -> pystr.

(** The body of the [for path in iter_code_files(...)] loop: the
    chunks of one selected file.  A file that cannot be read is
    reported on stderr and contributes nothing. *)
Definition chunks_of_path (source_dir : pystr)
  (chunk_lines chunk_overlap : Z) (collection : pystr) (path : Path)
  : list Chunk :=
  match read_text path with
  | inl exc => []
  | inr text =>
      let relative := as_posix (relative_parts path) in
      imap (fun idx '(chunk, start_line, end_line) =>
              {| doc_id := make_doc_id relative idx;
                 document := chunk;
                 metadata :=
                   <[py "path" := relative]>
                   (<[py "start_line" := str_of_Z start_line]>
                   (<[py "end_line" := str_of_Z end_line]>
                   (<[py "source_dir" := source_dir]>
                   (<[py "collection" := collection]> ∅)))) |})
           (chunk_text text chunk_lines chunk_overlap)
  end.

(** [tree] is [source_dir.rglob("*")] and [source_dir] is
    [str(source_dir)].  An exception that leaves [iter_code_files]
    leaves [discover_chunks] too, after the chunks of the files
    yielded before it. *)
Definition discover_chunks (tree : list Path) (source_dir : pystr)
  (extensions : list pystr) (include_hidden : bool)
  (max_file_mb : pyfloat) (chunk_lines chunk_overlap : Z)
  (collection : pystr) : gen Chunk :=
  let files :=
    iter_code_files lower tree extensions include_hidden max_file_mb in
  {| yielded :=
       path ← yielded files;
       chunks_of_path source_dir chunk_lines chunk_overlap collection path;
     raised := raised files |}.

(** The lines [discover_chunks] prints on stderr when it is run to its
    end. *)
Definition discover_stderr (tree : list Path) (extensions : list pystr)
  (include_hidden : bool) (max_file_mb : pyfloat) : list pystr :=
  path ← yielded (iter_code_files lower tree extensions include_hidden
                    max_file_mb);
  match read_text path with
  | inl (os_error exc) =>
      [py "Skipping " ++ path_str path ++ py ": " ++ exc]
  | inr _ => []
  end.
End assembler.

End Assembler.

(** ** Exceptions and the store *)

Module Store.

Inductive exn :=
| ValueError (msg : pystr)
| TypeError (msg : pystr)
| IndexError (msg : pystr)
| InvalidCollectionException (msg : pystr)
| OtherException (msg : pystr).

(** [str(exc)] *)
Definition exn_str (e : exn) : pystr :=
  match e with
  | ValueError m | TypeError m | IndexError m
  | InvalidCollectionException m | OtherException m => m
  end.

Definition not_subscriptable : exn :=
  TypeError (py "'NoneType' object is not subscriptable").
Definition no_len : exn :=
  TypeError (py "object of type 'NoneType' has no len()").
Definition not_iterable : exn :=
  TypeError (py "'NoneType' object is not iterable").
Definition index_out_of_range : exn :=
  IndexError (py "list index out of range").

(** A metadata value as the store returns it. *)
Inductive value :=
| VNone
| VStr (s : pystr)
| VInt (z : Z)
| VBool (b : bool)
| VFloat (f : pyfloat).

(** One entry of a reply dictionary: the key may be absent, or bound
    to [None], or bound to a value. *)
Inductive field (X : Type) := Absent | IsNone | Present (x : X).
Arguments Absent {X}.
Arguments IsNone {X}.
Arguments Present {X} x.

(** The reply of [collection.query]: one inner sequence per query
    text. *)
Record QueryResult := {
  q_metadatas : field (list (option (list (option (gmap pystr value)))));
  q_documents : field (list (option (list (option pystr))));
  q_distances : field (list (option (list (option pyfloat))))
}.

(** The reply of [collection.get]. *)
Record GetResult := {
  g_ids : field (list pystr);
  g_metadatas : field (list (option (gmap pystr value)));
  g_documents : field (list (option pystr))
}.

(** The calls the tools make on the file system and the store. *)
Inductive call :=
| Resolve (db_dir : pystr)
| Mkdir (path : pystr)
| PersistentClient (path : pystr)
| GetOrCreateCollection (path name : pystr)
| GetCollection (path name : pystr)
| Query (path name question : pystr) (n_results : Z)
| Count (path name : pystr)
| Get (path name : pystr) (limit offset : Z) (include : list pystr).

Definition reply (c : call) : Type :=
  match c with
  | Resolve _ => pystr
  | Mkdir _ | PersistentClient _
  | GetOrCreateCollection _ _ | GetCollection _ _ => unit
  | Query _ _ _ _ => QueryResult
  | Count _ _ => Z
  | Get _ _ _ _ _ => GetResult
  end.

(** The outside world answers a call, knowing the calls made so far,
    with a reply or an exception. *)
Definition world := forall (history : list call) (c : call), exn + reply c.

(** Computations that may raise and that log their calls. *)
Definition M (A : Type) : Type := list call -> (exn + A) * list call.

Definition ret {A} (a : A) : M A := fun log => (inr a, log).
Definition raise {A} (e : exn) : M A := fun log => (inl e, log).
Definition bind {A B} (m : M A) (k : A -> M B) : M B :=
  fun log =>
    match m log with
    | (inr a, log') => k a log'
    | (inl e, log') => (inl e, log')
    end.
(** [try: ... except Exception as exc: ...] *)
Definition try_except {A} (m : M A) (handler : exn -> M A) : M A :=
  fun log =>
    match m log with
    | (inr a, log') => (inr a, log')
    | (inl e, log') => handler e log'
    end.
Definition io (w : world) (c : call) : M (reply c) :=
  fun log => (w log c, log ++ [c]).
Definition lift {A} (r : exn + A) : M A := fun log => (r, log).

End Store.
Import Store.

Declare Scope py_scope.
Delimit Scope py_scope with py.
Notation "'do' x <- m ; k" := (bind m (fun x => k))
  (at level 10, x name, m at level 100, k at level 200) : py_scope.
Notation "m ;; k" := (bind m (fun _ => k))
  (at level 100, k at level 200, right associativity) : py_scope.

(** ** The retriever: [_query_collection_sync] *)

Module Retriever.

Section retriever.
(** [str(f)] for a float. *)
Variable str_of_float : pyfloat -> pystr.

(** [str(value)] *)
Definition str_of_value (v : value) : pystr :=
  match v with
  | VNone => py "None"
  | VStr s => s
  | VInt z => str_of_Z z
  | VBool true => py "True"
  | VBool false => py "False"
  | VFloat f => str_of_float f
  end.

(** One entry of the dict comprehension:
    [key: str(value) ... if value is not None]. *)
Definition clean_value (v : value) : option pystr :=
  match v with
  | VNone => None
  | _ => Some (str_of_value v)
  end.

(** [{key: str(value) for key, value in (metadata or {}).items()
      if value is not None}] *)
Definition clean_metadata (metadata : option (gmap pystr value))
  : gmap pystr pystr :=
  omap clean_value (default ∅ metadata).

(** [results.get(key, [[]])[0] or []] *)
Definition first_or_empty {X} (f : field (list (option (list X))))
  : exn + list X :=
  match f with
  | Absent => inr []
  | IsNone => inl not_subscriptable
  | Present [] => inl index_out_of_range
  | Present (Some l :: _) => inr l
  | Present (None :: _) => inr []
  end.

(** The body of the [for ... in zip(metadatas, documents, distances)]
    loop. *)
Definition clean_triple
  (t : option (gmap pystr value) * option pystr * option pyfloat)
  : gmap pystr pystr * pystr * pyfloat :=
  let '(metadata, document, distance) := t in
  (clean_metadata metadata,
   default [] document,
   match distance with Some d => d | None => zero end).

(** Lines 70-78: what is made of the reply [results]. *)
Definition clean_results (results : QueryResult)
  : exn + list (gmap pystr pystr * pystr * pyfloat) :=
  match first_or_empty (q_metadatas results) with
  | inl e => inl e
  | inr metadatas =>
      match first_or_empty (q_documents results) with
      | inl e => inl e
      | inr documents =>
          match first_or_empty (q_distances results) with
          | inl e => inl e
          | inr distances =>
              inr (clean_triple <$>
                     zip (zip metadatas documents) distances)
          end
      end
  end.

Variable w : world.

Definition _resolve_db_dir (db_dir : pystr) : M pystr :=
  io w (Resolve db_dir).

Definition _get_collection (db_dir collection_name : pystr)
  : M (pystr * pystr) :=
  (do path <- _resolve_db_dir db_dir;
   io w (Mkdir path);;
   io w (PersistentClient path);;
   io w (GetOrCreateCollection path collection_name);;
   ret (path, collection_name))%py.

Definition _query_collection_sync
  (question db_dir collection_name : pystr) (top_k : Z)
  : M (list (gmap pystr pystr * pystr * pyfloat)) :=
  (do collection <- _get_collection db_dir collection_name;
   do results <- io w (Query collection.1 collection.2 question top_k);
   lift (clean_results results))%py.

(** The [for idx, row_id in enumerate(ids)] loop of
    [_list_rows_sync]; [metadatas] and [documents] are [None] or a
    list. *)
Fixpoint rows_loop (idx : nat) (ids : list pystr)
  (metadatas : option (list (option (gmap pystr value))))
  (documents : option (list (option pystr))) (include_docs : bool)
  : exn + list (pystr * gmap pystr pystr * option pystr) :=
  match ids with
  | [] => inr []
  | row_id :: rest =>
      match metadatas with
      | None => inl no_len
      | Some ms =>
          let metadata := default (Some ∅) (ms !! idx) in
          let clean := clean_metadata metadata in
          match (if include_docs then documents else Some []) with
          | None => inl no_len
          | Some ds =>
              let document :=
                if include_docs then default None (ds !! idx) else None in
              match rows_loop (S idx) rest metadatas documents
                      include_docs with
              | inl e => inl e
              | inr rows => inr ((row_id, clean, document) :: rows)
              end
          end
      end
  end.

(** [data.get(key, [])] *)
Definition get_or_empty {X} (f : field (list X)) : option (list X) :=
  match f with
  | Absent => Some []
  | IsNone => None
  | Present l => Some l
  end.

Definition _list_rows_sync (db_dir collection_name : pystr)
  (limit offset : Z) (include_docs : bool)
  : M (Z * list (pystr * gmap pystr pystr * option pystr)) :=
  (do path <- _resolve_db_dir db_dir;
   io w (PersistentClient path);;
   io w (GetCollection path collection_name);;
   do total <- io w (Count path collection_name);
   let include :=
     [py "metadatas"] ++ (if include_docs then [py "documents"] else []) in
   do data <- io w (Get path collection_name limit offset include);
   match get_or_empty (g_ids data) with
   | None => raise not_iterable
   | Some ids =>
       let metadatas := get_or_empty (g_metadatas data) in
       let documents :=
         if include_docs then get_or_empty (g_documents data)
         else Some [] in
       do rows <- lift (rows_loop 0 ids metadatas documents include_docs);
       ret (total : Z, rows)
   end)%py.
End retriever.

End Retriever.

(** ** The tool surface: [query_codebase] and [list_rows] *)

Module Tools.
Import Retriever.

Section tools.
Variable str_of_float : pyfloat -> pystr.
Variable w : world.

(** The presenter's functions; what they print is not needed below. *)
Variable format_context :
  gmap pystr pystr -> pystr -> pyfloat -> Z -> pystr.
Variable simple_summary :
  pystr -> list (gmap pystr pystr * pystr) -> pystr.
Variable _format_rows_output :
  pystr -> pystr -> Z -> Z ->
  list (pystr * gmap pystr pystr * option pystr) -> bool -> pystr.

Definition _validate_positive (name : pystr) (value : Z) : M unit :=
  if value <=? 0
  then raise (ValueError (name ++ py " must be greater than zero."))
  else ret tt.

(** [await asyncio.to_thread(f, ...)]: the caller waits for the
    result of [f]. *)
Definition to_thread {A} (m : M A) : M A := m.

Definition query_codebase (question : pystr) (top_k : Z)
  (collection db_dir : pystr) : M pystr :=
  (_validate_positive (py "top_k") top_k;;
   do r <- try_except
             (do contexts <-
                to_thread (_query_collection_sync str_of_float w
                             question db_dir collection top_k);
              ret (inr contexts))
             (fun exc => ret (inl (py "Query failed: " ++ exn_str exc)));
   match r with
   | inl failure => ret failure
   | inr [] =>
       ret (py "No matches found. Make sure the collection has been ingested.")
   | inr contexts =>
       let snippets :=
         imap (fun idx '(metadata, document, distance) =>
                 format_context metadata document distance
                   (Z.of_nat idx + 1))
              contexts in
       let summary :=
         simple_summary question
           ((fun '(metadata, document, _) => (metadata, document))
              <$> contexts) in
       do path <- _resolve_db_dir w db_dir;
       let header :=
         py "Collection '" ++ collection ++ py "' @ " ++ path in
       ret (join [10%N; 10%N]
              ([header] ++ snippets ++ [py "-----------"; summary]))
   end)%py.

Definition list_rows (collection db_dir : pystr) (limit offset : Z)
  (include_documents : bool) : M pystr :=
  (_validate_positive (py "limit") limit;;
   (if offset <? 0
    then raise (ValueError (py "offset must be zero or greater."))
    else ret tt);;
   do r <- try_except
             (do tr <-
                to_thread (_list_rows_sync str_of_float w db_dir
                             collection limit offset include_documents);
              ret (inr tr))
             (fun exc =>
                match exc with
                | InvalidCollectionException _ =>
                    do path <- _resolve_db_dir w db_dir;
                    ret (inl (py "Collection '" ++ collection
                                ++ py "' was not found in " ++ path
                                ++ py ". Run the ingestion script first."))
                | _ =>
                    ret (inl (py "Failed to fetch rows: " ++ exn_str exc))
                end);
   match r with
   | inl message => ret message
   | inr (total, rows) =>
       do path <- _resolve_db_dir w db_dir;
       ret (_format_rows_output path collection total offset rows
              include_documents)
   end)%py.
End tools.

End Tools.

(** ** Concrete inputs used in the examples *)

Module Samples.
Import Assembler.

(** [str.lower] on ASCII text. *)
Definition ascii_lower (s : pystr) : pystr :=
  (fun c => if ((65 <=? c) && (c <=? 90))%N then (c + 32)%N else c) <$> s.

(** A readable regular file below the root. *)
Definition mk_file (parts : list pystr) (ext text : pystr) : Path :=
  {| path_str := py "/repo/" ++ as_posix parts;
     is_file := inr true;
     relative_parts := parts;
     suffix := ext;
     stat_size := inr (len text);
     read_text := inr text |}.

(** Five lines, the third empty and the fourth blank. *)
Definition sample_text : pystr :=
  py "a" ++ NL ++ py "b" ++ NL ++ NL ++ py " " ++ NL ++ py "c" ++ NL.

(** A two-line text whose second line is empty. *)
Definition blank_tail_text : pystr := py "a" ++ NL ++ NL.

(** One hundred lines ["x"]. *)
Definition hundred_lines : pystr := join NL (replicate 100 (py "x")).

Definition hundred_file : Path :=
  mk_file [py "src"; py "f.py"] (py ".py") hundred_lines.

(** Two three-line files at the same relative path; the second has an
    empty middle line. *)
Definition abc_file : Path :=
  mk_file [py "g.py"] (py ".py") (py "a" ++ NL ++ py "b" ++ NL ++ py "c").
Definition a_c_file : Path :=
  mk_file [py "g.py"] (py ".py") (py "a" ++ NL ++ NL ++ py "c").

(** A file whose size cannot be read, a hidden file and a directory. *)
Definition unstatable_file : Path :=
  {| path_str := py "/repo/gone.py";
     is_file := inr true;
     relative_parts := [py "gone.py"];
     suffix := py ".py";
     stat_size := inl (os_error (py "No such file or directory"));
     read_text := inl (os_error (py "No such file or directory")) |}.
Definition hidden_file : Path :=
  mk_file [py ".git"; py "hook.py"] (py ".py") (py "pass").
Definition directory : Path :=
  {| path_str := py "/repo/src";
     is_file := inr false;
     relative_parts := [py "src"];
     suffix := [];
     stat_size := inr 4096;
     read_text := inl (os_error (py "Is a directory")) |}.
Definition upper_file : Path :=
  mk_file [py "README.MD"] (py ".MD") (py "# title").

(** A file in a directory that can be listed but not searched: every
    [stat()] of it fails with EACCES, so [is_file()] raises. *)
Definition denied_file : Path :=
  {| path_str := py "/repo/locked/h.py";
     is_file := inl (os_error (py "[Errno 13] Permission denied"));
     relative_parts := [py "locked"; py "h.py"];
     suffix := py ".py";
     stat_size := inl (os_error (py "[Errno 13] Permission denied"));
     read_text := inl (os_error (py "[Errno 13] Permission denied")) |}.

(** A regular file whose size can be read but whose content cannot. *)
Definition unreadable_file : Path :=
  {| path_str := py "/repo/secret.py";
     is_file := inr true;
     relative_parts := [py "secret.py"];
     suffix := py ".py";
     stat_size := inr 12;
     read_text := inl (os_error (py "[Errno 13] Permission denied")) |}.

(** A store that answers every query with two hits: the first without
    a document and with a [None] metadata value, the second without
    metadata and without a distance. *)
Definition sample_results : QueryResult :=
  {| q_metadatas :=
       Present [Some [Some (<[py "path" := VStr (py "a.py")]>
                            (<[py "start_line" := VInt 1]>
                            (<[py "note" := VNone]> ∅)));
                      None]];
     q_documents := Present [Some [None; Some (py "text")]];
     q_distances := Present [Some [Some (Finite 0.25); None]] |}.

Definition sample_world : world :=
  fun history c =>
    match c as c0 return exn + reply c0 with
    | Resolve db_dir => inr (py "/abs/" ++ db_dir)
    | Mkdir _ | PersistentClient _ => inr tt
    | GetOrCreateCollection _ _ | GetCollection _ _ => inr tt
    | Query _ _ _ _ => inr sample_results
    | Count _ _ => inr 2
    | Get _ _ _ _ _ =>
        inr {| g_ids := Present []; g_metadatas := Present [];
               g_documents := IsNone |}
    end.

End Samples.

(** ** Command-line helpers: [parse_extensions] *)

Module Cli.

Definition DEFAULT_EXTENSIONS : list pystr :=
  [py ".py"; py ".ts"; py ".tsx"; py ".js"; py ".jsx"; py ".java"; py ".cs";
   py ".cpp"; py ".c"; py ".rs"; py ".go"; py ".rb"; py ".php"; py ".kt";
   py ".swift"; py ".scala"; py ".m"; py ".mm"; py ".sql"; py ".json";
   py ".yaml"; py ".yml"; py ".toml"; py ".md"].

(** [s.split(sep)] for a separator of one character: there is always at
    least one part. *)
Fixpoint split_on (sep : N) (s : pystr) : list pystr :=
  match s with
  | [] => [[]]
  | c :: s' =>
      if (c =? sep)%N then [] :: split_on sep s'
      else
        match split_on sep s' with
        | [] => [[c]]
        | part :: parts => (c :: part) :: parts
        end
  end.

(** The [for part in parts] loop of [parse_extensions]. *)
Fixpoint normalize (parts : list pystr) : list pystr :=
  match parts with
  | [] => []
  | part :: rest =>
      if negb (truthy part) then normalize rest
      else (if starts_with_dot part then part else py "." ++ part)
             :: normalize rest
  end.

Section cli.
(** [str.lower] *)
Variable lower : pystr -> pystr.

(** [raw] is [None] or a string. *)
Definition parse_extensions (raw : option pystr) : list pystr :=
  match raw with
  | None => DEFAULT_EXTENSIONS
  | Some raw =>
      if negb (truthy raw) then DEFAULT_EXTENSIONS
      else normalize ((fun p => lower (strip p)) <$> split_on 44 raw)
  end.
End cli.

End Cli.

(** ** The presenter of rows: [_format_rows_output] *)

Module Presenter.

(** [a <= b] on strings: lexicographic on the code points. *)
Fixpoint str_le (a b : pystr) : bool :=
  match a, b with
  | [], _ => true
  | _ :: _, [] => false
  | x :: a', y :: b' =>
      if (x <? y)%N then true
      else if (x =? y)%N then str_le a' b'
      else false
  end.

(** [sorted(metadata)]: the keys in increasing order. *)
Definition sorted_keys (metadata : gmap pystr pystr) : list pystr :=
  merge_sort (fun a b => Is_true (str_le a b)) (map_to_list metadata).*1.

(** The lines one row adds: the body of the [for idx, (...) in
    enumerate(rows, start=offset + 1)] loop. *)
Definition row_lines (include_docs : bool) (idx : Z)
  (row : pystr * gmap pystr pystr * option pystr) : list pystr :=
  let '(row_id, metadata, document) := row in
  [py "[" ++ str_of_Z idx ++ py "] id=" ++ row_id]
  ++ (if bool_decide (metadata = ∅) then [py "    (no metadata)"]
      else (fun key =>
              py "    " ++ key ++ py ": " ++ default [] (metadata !! key))
             <$> sorted_keys metadata)
  ++ (if include_docs && truthy (default [] document) then
        let snippet := strip (default [] document) in
        let snippet :=
          if len snippet >? 700 then take 700 snippet ++ py "..."
          else snippet in
        [py "    --- document ---"]
        ++ ((fun doc_line => py "    " ++ doc_line) <$> splitlines snippet)
      else [])
  ++ [[]].

Definition _format_rows_output (db_dir collection_name : pystr)
  (total offset : Z) (rows : list (pystr * gmap pystr pystr * option pystr))
  (include_docs : bool) : pystr :=
  let lines :=
    [py "Collection '" ++ collection_name ++ py "' @ " ++ db_dir;
     py "Total rows: " ++ str_of_Z total;
     []] in
  match rows with
  | [] => join NL (lines ++ [py "No rows found for the requested window."])
  | _ :: _ =>
      rstrip (join NL
                (lines
                 ++ concat (imap (fun i row =>
                                    row_lines include_docs
                                      (offset + 1 + Z.of_nat i) row)
                              rows)))
  end.


End Presenter.

(** ** Processes: the ingestion run and the listing of collections *)

Module Run.
Import Chunker Batching Assembler Cli.

(** A collection as [client.list_collections()] shows it; the metadata
    is a dictionary, kept in its own order. *)
Record CollectionInfo := {
  ci_name : pystr;
  ci_metadata : option (list (pystr * value))
}.

(** What a process does to the outside: file system queries, store
    calls and lines printed on stdout. *)
Inductive op :=
| OpResolve (path : pystr)       (* Path(path).expanduser().resolve() *)
| OpIsDir (path : pystr)         (* path.is_dir() *)
| OpExists (path : pystr)        (* path.exists() *)
| OpMkdir (path : pystr)         (* path.mkdir(parents=True, exist_ok=True) *)
| OpClient (path : pystr)        (* chromadb.PersistentClient(path=...) *)
| OpDeleteCollection (db name : pystr)
| OpGetOrCreateCollection (db name : pystr)
    (* DefaultEmbeddingFunction(); client.get_or_create_collection() *)
| OpUpsert (db name : pystr) (ids documents : list pystr)
    (metadatas : list (gmap pystr pystr))
| OpListCollections (db : pystr)
| OpCount (db name : pystr)
| OpPrint (line : pystr).

Definition answer (o : op) : Type :=
  match o with
  | OpResolve _ => pystr
  | OpIsDir _ | OpExists _ => bool
  | OpListCollections _ => list CollectionInfo
  | OpCount _ _ => Z
  | _ => unit
  end.

(** The outside answers an operation, knowing what was done so far, or
    raises. *)
Definition env := forall (history : list op) (o : op), exn + answer o.

(** [SystemExit] is not an [Exception]: it passes through
    [except Exception]. *)
Inductive failure := SystemExit (msg : pystr) | Raised (e : exn).

Definition P (A : Type) : Type := list op -> (failure + A) * list op.

Definition ret {A} (a : A) : P A := fun log => (inr a, log).
Definition raise {A} (f : failure) : P A := fun log => (inl f, log).
Definition bind {A B} (m : P A) (k : A -> P B) : P B :=
  fun log =>
    match m log with
    | (inr a, log') => k a log'
    | (inl f, log') => (inl f, log')
    end.
Definition io (e : env) (o : op) : P (answer o) :=
  fun log =>
    (match e log o with inr a => inr a | inl x => inl (Raised x) end,
     log ++ [o]).
(** [print] cannot fail. *)
Definition print (line : pystr) : P unit :=
  fun log => (inr tt, log ++ [OpPrint line]).

End Run.

Declare Scope run_scope.
Delimit Scope run_scope with run.
Notation "'do' x <- m ; k" := (Run.bind m (fun x => k))
  (at level 10, x name, m at level 100, k at level 200) : run_scope.
Notation "m ;; k" := (Run.bind m (fun _ => k))
  (at level 100, k at level 200, right associativity) : run_scope.

Module Ingest.
Import Chunker Batching Assembler Cli Run.




Section ingest.
Variable lower : pystr -> pystr.
Variable e : env.
(** [walk source] is [source.rglob("*")] with what is read of each
    path while the chunks are produced. *)
Variable walk : pystr -> list Path.

Definition ensure_collection (db_dir collection_name : pystr) (reset : bool)
  : P unit :=
  (io e (OpMkdir db_dir);;
   io e (OpClient db_dir);;
   (if reset then
      fun log =>
        match (io e (OpDeleteCollection db_dir collection_name);;
               print (py "Deleted existing collection '" ++ collection_name
                        ++ py "'.")) log with
        | (inl (Raised (InvalidCollectionException _)), log') => (inr tt, log')
        | other => other
        end
    else ret tt);;
   io e (OpGetOrCreateCollection db_dir collection_name))%run.



End ingest.

(** The upserts among the operations of a run. *)
Definition is_upsert (o : op) : bool :=
  match o with OpUpsert _ _ _ _ _ => true | _ => false end.

Definition upserts (log : list op) : list op :=
  filter (fun o => Is_true (is_upsert o)) log.


End Ingest.

Module Listing.
Import Run.

(** An entry of the listing: the dictionary with the keys ["name"],
    ["count"] and, when the collection has metadata, ["metadata"]. *)
Record Entry := {
  e_name : pystr;
  e_count : pystr;
  e_metadata : option pystr
}.

Section listing.
Variable str_of_float : pyfloat -> pystr.
Variable e : env.

(** [", ".join(f"{key}={value}" for key, value in metadata.items())] *)
Definition metadata_text (items : list (pystr * value)) : pystr :=
  join (py ", ")
    ((fun kv : pystr * value =>
        kv.1 ++ py "=" ++ Retriever.str_of_value str_of_float kv.2)
       <$> items).

(** The [for collection in client.list_collections()] loop. *)
Fixpoint entries_loop (db : pystr) (collections : list CollectionInfo)
  : P (list Entry) :=
  match collections with
  | [] => ret []
  | collection :: rest =>
      (do count <-
         (fun log =>
            match io e (OpCount db (ci_name collection)) log with
            | (inl (Raised _), log') => (inr 0, log')
            | other => other
            end);
       let entry :=
         {| e_name := ci_name collection;
            e_count := str_of_Z count;
            e_metadata :=
              match ci_metadata collection with
              | None | Some [] => None
              | Some items => Some (metadata_text items)
              end |} in
       do data <- entries_loop db rest;
       ret (entry :: data))%run
  end.

Definition _list_collections_sync (db_dir : pystr) : P (list Entry) :=
  (do path <- io e (OpResolve db_dir);
   do exists_ <- io e (OpExists path);
   if negb exists_ then ret []
   else
     io e (OpClient path);;
     do collections <- io e (OpListCollections path);
     entries_loop path collections)%run.

Definition entry_line (entry : Entry) : pystr :=
  py "- " ++ e_name entry ++ py " (" ++ e_count entry ++ py " rows)"
  ++ match e_metadata entry with
     | Some text => py " [" ++ text ++ py "]"
     | None => []
     end.

Definition list_collections (db_dir : pystr) : P pystr :=
  (do collections <- _list_collections_sync db_dir;
   do path <- io e (OpResolve db_dir);
   match collections with
   | [] =>
       ret (py "No collections found in " ++ path
              ++ py ". Ingest code with chromadb_code_rag.py first.")
   | _ :: _ =>
       ret (join NL ((py "Collections in " ++ path ++ py ":")
                       :: (entry_line <$> collections)))
   end)%run.
End listing.

End Listing.

(** ** Sample environments for the ingestion and the listing *)

Module RunSamples.
Import Run Ingest Samples.

(** Every path resolves under [/abs/] and exists; the collection does
    not exist yet; the store holds two collections, and counting the rows
    of the one named [broken] fails. *)
Definition sample_env : env :=
  fun history o =>
    match o return exn + answer o with
    | OpResolve path => inr (py "/abs/" ++ path)
    | OpIsDir _ => inr true
    | OpExists _ => inr true
    | OpMkdir _ => inr tt
    | OpClient _ => inr tt
    | OpDeleteCollection _ _ =>
        inl (InvalidCollectionException (py "no such collection"))
    | OpGetOrCreateCollection _ _ => inr tt
    | OpUpsert _ _ _ _ _ => inr tt
    | OpListCollections _ =>
        inr [ {| ci_name := py "broken"; ci_metadata := None |};
              {| ci_name := py "code-rag";
                 ci_metadata := Some [(py "kind", VStr (py "code-rag"))] |} ]
    | OpCount _ name =>
        if bool_decide (name = py "broken")
        then inl (OtherException (py "corrupt segment"))
        else inr 3
    | OpPrint _ => inr tt
    end.

(** As [sample_env], but no path exists. *)
Definition missing_env : env :=
  fun history o =>
    match o return exn + answer o with
    | OpIsDir _ => inr false
    | OpExists _ => inr false
    | other => sample_env history other
    end.

(** As [sample_env], but the store refuses to delete a collection. *)
Definition locked_env : env :=
  fun history o =>
    match o return exn + answer o with
    | OpDeleteCollection _ _ => inl (OtherException (py "database is locked"))
    | other => sample_env history other
    end.




End RunSamples.

(** * Properties *)

(** ** Strings and sequences *)

Module PyStrFacts.

Lemma lstrip_all_space (s : pystr) :
  Forall (fun c => is_space c = true) s -> lstrip s = [].
Proof.
  induction 1 as [|c s Hc _ IH]; simpl; [done|]. by rewrite Hc.
Qed.

Lemma strip_all_space (s : pystr) :
  Forall (fun c => is_space c = true) s -> strip s = [].
Proof. intros H. unfold strip. by rewrite (lstrip_all_space s H). Qed.

Lemma join_Forall (P : N -> Prop) (sep : pystr) (parts : list pystr) :
  Forall P sep -> Forall (Forall P) parts -> Forall P (join sep parts).
Proof.
  intros Hsep. induction 1 as [|p rest Hp Hrest IH]; simpl; [constructor|].
  destruct rest as [|q rest]; [done|].
  apply Forall_app; split; [done|]. apply Forall_app; split; done.
Qed.

(** Every character of a line is a character of the text. *)
Lemma splitlines_Forall (P : N -> Prop) (s : pystr) :
  Forall P s -> Forall (Forall P) (splitlines s).
Proof.
  remember (length s) as n eqn:Hn.
  revert s Hn. induction n as [n IH] using lt_wf_ind. intros s Hn Hs.
  destruct s as [|c s]; simpl; [constructor|].
  apply Forall_cons_iff in Hs as [Hc Hs].
  destruct (is_linebreak c).
  - destruct s as [|c2 s2]; [repeat constructor|].
    apply Forall_cons_iff in Hs as [Hc2 Hs2].
    destruct ((c =? 13)%N && (c2 =? 10)%N).
    + constructor; [constructor|]. eapply IH; [|reflexivity|done].
      simpl in *; lia.
    + constructor; [constructor|]. eapply IH; [|reflexivity|by constructor].
      simpl in *; lia.
  - assert (Hrec : Forall (Forall P) (splitlines s)).
    { eapply IH; [|reflexivity|done]. simpl in *; lia. }
    destruct (splitlines s) as [|l ls]; [repeat constructor; done|].
    apply Forall_cons_iff in Hrec as [Hl Hls]. repeat constructor; done.
Qed.

Lemma slice_Forall {A} (P : A -> Prop) (l : list A) (lo hi : Z) :
  Forall P l -> Forall P (slice l lo hi).
Proof. intros H. unfold slice. by apply Forall_take, Forall_drop. Qed.

(** Inside the list, with ordered bounds, a slice is the segment of
    the list between the bounds. *)
Lemma slice_inside {A} (l : list A) (lo hi : Z) :
  0 <= lo <= hi -> hi <= len l ->
  slice l lo hi = take (Z.to_nat (hi - lo)) (drop (Z.to_nat lo) l)
  /\ length (slice l lo hi) = Z.to_nat (hi - lo).
Proof.
  intros Hlo Hhi. unfold slice, slice_index, len in *.
  destruct (Z.ltb_spec lo 0); [lia|]. destruct (Z.ltb_spec hi 0); [lia|].
  rewrite !Z.min_l by lia. split; [done|].
  rewrite length_take, length_drop. lia.
Qed.

End PyStrFacts.

(** ** The chunker *)

Module ChunkerFacts.
Import Chunker PyStrFacts.

Lemma window_loop_unfold lines c step H start :
  window_loop lines c step H start =
  if decide (start < len lines)
  then (start, Z.min (len lines) (start + c))
         :: window_loop lines c step H (start + step)
  else [].
Proof.
  rewrite window_loop_equation_1.
  destruct (Z_lt_dec start (len lines)); simpl; case_decide; done || lia.
Qed.

Lemma chunk_loop_unfold lines c step H start :
  chunk_loop lines c step H start =
  if decide (start < len lines)
  then emit lines (start, Z.min (len lines) (start + c))
         ++ chunk_loop lines c step H (start + step)
  else [].
Proof.
  rewrite chunk_loop_equation_1.
  destruct (Z_lt_dec start (len lines)); simpl; case_decide; done || lia.
Qed.

(** ceiling division, characterised *)
Lemma cdiv_bounds (a b : Z) :
  0 < b -> (cdiv a b - 1) * b < a <= cdiv a b * b.
Proof.
  intros Hb. unfold cdiv.
  pose proof (Z.div_mod (a + b - 1) b ltac:(lia)) as Hdm.
  pose proof (Z.mod_pos_bound (a + b - 1) b Hb) as Hm.
  nia.
Qed.

Lemma cdiv_step (a b : Z) :
  0 < b -> cdiv a b = 1 + cdiv (a - b) b.
Proof.
  intros Hb. unfold cdiv.
  replace (a + b - 1) with ((a - b + b - 1) + 1 * b) by lia.
  rewrite Z.div_add by lia. lia.
Qed.

Lemma cdiv_pos (a b : Z) : 0 < b -> 0 < a -> 0 < cdiv a b.
Proof. intros Hb Ha. pose proof (cdiv_bounds a b Hb). nia. Qed.

Lemma cdiv_nonpos (a b : Z) : 0 < b -> a <= 0 -> cdiv a b <= 0.
Proof. intros Hb Ha. pose proof (cdiv_bounds a b Hb). nia. Qed.

(** One iteration uses up one of the iterations that remain. *)
Lemma iterations_next (L step start : Z) (n : nat) :
  1 <= step -> start < L ->
  S n = Z.to_nat (cdiv (L - start) step) ->
  n = Z.to_nat (cdiv (L - (start + step)) step).
Proof.
  intros Hstep Hlt Hn.
  rewrite (cdiv_step (L - start) step) in Hn by lia.
  replace (L - (start + step)) with (L - start - step) by lia.
  pose proof (cdiv_bounds (L - start - step) step). nia.
Qed.

(** The iterations of the loop from [start]: one per multiple of
    [step], as long as the start is below [len lines]. *)
Lemma window_loop_spec lines c step H start :
  window_loop lines c step H start =
  (fun k : nat =>
     (start + Z.of_nat k * step,
      Z.min (len lines) (start + Z.of_nat k * step + c)))
    <$> seq 0 (Z.to_nat (cdiv (len lines - start) step)).
Proof.
  remember (Z.to_nat (cdiv (len lines - start) step)) as n eqn:Hn.
  revert start Hn. induction n as [|n IH]; intros start Hn.
  - rewrite window_loop_unfold. case_decide as Hlt; [|done].
    pose proof (cdiv_pos (len lines - start) step). lia.
  - rewrite window_loop_unfold. case_decide as Hlt.
    + rewrite (IH (start + step)).
      * cbn [seq fmap list_fmap]. f_equal; [f_equal; [lia|f_equal; lia]|].
        rewrite <- seq_shift, <- list_fmap_compose.
        apply list_fmap_ext. intros _ k _. simpl. f_equal; [lia|f_equal; lia].
      * by apply iterations_next.
    + pose proof (cdiv_nonpos (len lines - start) step). lia.
Qed.

(** The yielding loop is the window loop followed by the body's
    conditional [yield]. *)
Lemma chunk_loop_emit lines c step H start :
  chunk_loop lines c step H start =
  window_loop lines c step H start ≫= emit lines.
Proof.
  remember (Z.to_nat (cdiv (len lines - start) step)) as n eqn:Hn.
  revert start Hn. induction n as [|n IH]; intros start Hn.
  - rewrite window_loop_unfold, chunk_loop_unfold. case_decide as Hlt; [|done].
    pose proof (cdiv_pos (len lines - start) step). lia.
  - rewrite window_loop_unfold, chunk_loop_unfold. case_decide as Hlt; [|done].
    rewrite bind_cons. f_equal. by apply IH, iterations_next.
Qed.

End ChunkerFacts.

Module ChunkerSpec.
Import Chunker PyStrFacts ChunkerFacts Samples.

Lemma truthy_nonempty (s : pystr) : truthy s = true <-> s <> [].
Proof. destruct s; simpl; split; congruence. Qed.

Lemma bind_emit_omap lines (ws : list (Z * Z)) :
  ws ≫= emit lines = omap (body_yield lines) ws.
Proof.
  induction ws as [|w ws IH]; [done|].
  rewrite bind_cons, IH. cbn [omap list_omap].
  unfold emit, body_yield. by destruct (truthy _).
Qed.

(** [chunk_text] yields, in order, what the body makes of each
    candidate window. *)
Lemma chunk_text_omap text c o :
  chunk_text text c o
  = omap (body_yield (splitlines text)) (chunk_windows text c o).
Proof.
  unfold chunk_text, chunk_windows.
  destruct (splitlines text) as [|l ls] eqn:Hl; [done|].
  cbv zeta. by rewrite chunk_loop_emit, bind_emit_omap.
Qed.

(** The candidate windows start at the multiples of [step] below the
    number of lines. *)
Lemma chunk_windows_spec text c o :
  let L := len (splitlines text) in
  let step := Z.max 1 (c - o) in
  chunk_windows text c o =
  (fun k : nat => (Z.of_nat k * step, Z.min L (Z.of_nat k * step + c)))
    <$> seq 0 (Z.to_nat (cdiv L step)).
Proof.
  intros L step. unfold chunk_windows. subst L.
  destruct (splitlines text) as [|l ls] eqn:Hl.
  - unfold cdiv, len. simpl. subst step.
    rewrite Z.div_small by lia. done.
  - cbv zeta. rewrite window_loop_spec. rewrite Z.sub_0_r.
    apply list_fmap_ext. intros _ k _. done.
Qed.

Lemma count_bound (L step : Z) (k : nat) :
  0 < step ->
  (k < Z.to_nat (cdiv L step))%nat <-> Z.of_nat k * step < L.
Proof.
  intros Hs. pose proof (cdiv_bounds L step Hs). split; intros Hk; nia.
Qed.

Lemma yielded_pairs lines (ws : list (Z * Z)) :
  (fun t : pystr * Z * Z => (t.1.2, t.2)) <$> omap (body_yield lines) ws =
  (fun w : Z * Z => (w.1 + 1, w.2))
    <$> filter (fun w => window_text lines w.1 w.2 <> []) ws.
Proof.
  induction ws as [|w ws IH]; [done|].
  cbn [omap list_omap]. rewrite filter_cons. unfold body_yield at 1.
  destruct (decide (window_text lines w.1 w.2 <> [])) as [Hne|He].
  - apply truthy_nonempty in Hne as ->. rewrite !fmap_cons. by rewrite IH.
  - destruct (truthy _) eqn:Ht; [|exact IH].
    apply truthy_nonempty in Ht. done.
Qed.

Lemma StronglySorted_omap {A B} (R : relation A) (R' : relation B)
  (f : A -> option B) (l : list A) :
  (forall x y x' y', R x y -> f x = Some x' -> f y = Some y' -> R' x' y') ->
  StronglySorted R l -> StronglySorted R' (omap f l).
Proof.
  intros Hf.
  induction 1 as [|x l Hl IH Hx]; cbn [omap list_omap]; [constructor|].
  destruct (f x) as [x'|] eqn:Hfx; [|done].
  constructor; [done|]. apply Forall_forall. intros y' Hy'.
  apply list_elem_of_omap in Hy' as (y & Hy & Hfy).
  rewrite Forall_forall in Hx. eauto.
Qed.

Lemma windows_sorted (g : nat -> Z * Z) (i n : nat) :
  (forall j k : nat, (j < k)%nat -> (g j).1 < (g k).1) ->
  StronglySorted (fun a b : Z * Z => a.1 < b.1) (g <$> seq i n).
Proof.
  intros Hg. revert i. induction n as [|n IH]; intros i; simpl; constructor.
  - apply IH.
  - apply Forall_forall. intros w Hw.
    apply list_elem_of_fmap in Hw as (k & -> & Hk).
    apply elem_of_seq in Hk. apply Hg. lia.
Qed.

(** C1: for a text of [L > 0] lines and a positive [chunk_lines], the
    candidate windows of [chunk_text] start at the line offsets
    [0, step, 2*step, ...] with [step = max(1, c - o)], one for every
    multiple of [step] below [L] and none from the first one that
    reaches [L]; each covers the lines [[start, min(L, start + c))];
    and the [(start_line, end_line)] pairs yielded are
    [(start + 1, min(L, start + c))] for those windows (the ones whose
    text is not blank), in increasing order of start. *)
Theorem chunk_text_windows (text : pystr) (c o : Z) :
  let lines := splitlines text in
  let L := len lines in
  let step := Z.max 1 (c - o) in
  let n := Z.to_nat (cdiv L step) in
  let windows := chunk_windows text c o in
  0 < L -> 0 < c ->
  windows =
    (fun k : nat => (Z.of_nat k * step, Z.min L (Z.of_nat k * step + c)))
      <$> seq 0 n
  /\ (forall k : nat, (k < n)%nat <-> Z.of_nat k * step < L)
  /\ Forall (fun w : Z * Z =>
               0 <= w.1 < w.2 /\ w.2 <= L /\
               slice lines w.1 w.2 =
                 take (Z.to_nat (w.2 - w.1)) (drop (Z.to_nat w.1) lines) /\
               length (slice lines w.1 w.2) = Z.to_nat (w.2 - w.1)) windows
  /\ chunk_text text c o = omap (body_yield lines) windows
  /\ (fun t : pystr * Z * Z => (t.1.2, t.2)) <$> chunk_text text c o =
     (fun w : Z * Z => (w.1 + 1, w.2))
       <$> filter (fun w => window_text lines w.1 w.2 <> []) windows
  /\ StronglySorted (fun a b : pystr * Z * Z => a.1.2 < b.1.2)
       (chunk_text text c o).
Proof.
  intros lines L step n windows HL Hc.
  assert (Hstep : 0 < step) by (subst step; lia).
  assert (Hw : windows =
    (fun k : nat => (Z.of_nat k * step, Z.min L (Z.of_nat k * step + c)))
      <$> seq 0 n) by apply chunk_windows_spec.
  assert (Hn : forall k : nat, (k < n)%nat <-> Z.of_nat k * step < L)
    by (intros k; by apply count_bound).
  split; [exact Hw|]. split; [exact Hn|].
  split.
  { rewrite Hw. apply Forall_forall. intros w Hin.
    apply list_elem_of_fmap in Hin as (k & -> & Hk).
    apply elem_of_seq in Hk. simpl.
    assert (Z.of_nat k * step < L) by (apply Hn; lia).
    assert (0 <= Z.of_nat k * step) by nia.
    split; [lia|]. split; [lia|]. apply slice_inside; lia. }
  split; [apply chunk_text_omap|].
  split.
  { rewrite chunk_text_omap. apply yielded_pairs. }
  rewrite chunk_text_omap. fold lines windows. rewrite Hw.
  eapply StronglySorted_omap; [|apply windows_sorted].
  - intros x y x' y' Hxy Hx Hy. unfold body_yield in Hx, Hy.
    destruct (truthy _) in Hx; [|done]. destruct (truthy _) in Hy; [|done].
    inversion Hx; inversion Hy; subst; simpl in *. lia.
  - intros j k Hjk. simpl. apply Z.mul_lt_mono_pos_r; lia.
Qed.

(** C5: an empty or all-whitespace text yields nothing; every yielded
    chunk's text is its window's lines joined with newlines and
    stripped; a window whose text strips to empty is not yielded; and
    the start advances by [step] from every window to the next,
    whether or not the window was yielded. *)
Theorem chunk_text_strips (text : pystr) (c o : Z) :
  let lines := splitlines text in
  let step := Z.max 1 (c - o) in
  let windows := chunk_windows text c o in
  (Forall (fun ch => is_space ch = true) text -> chunk_text text c o = [])
  /\ chunk_text text c o =
     omap (fun w : Z * Z =>
             let chunk := strip (join NL (slice lines w.1 w.2)) in
             if truthy chunk then Some (chunk, w.1 + 1, w.2) else None)
          windows
  /\ Forall (fun t : pystr * Z * Z =>
               (t.1.1 <> [])
               /\ ((t.1.2 - 1, t.2) ∈ windows)
               /\ (t.1.1 = strip (join NL (slice lines (t.1.2 - 1) t.2))))
       (chunk_text text c o)
  /\ (forall w : Z * Z,
        w ∈ windows -> strip (join NL (slice lines w.1 w.2)) = [] ->
        forall t : pystr * Z * Z, t ∈ chunk_text text c o -> t.1.2 <> w.1 + 1)
  /\ (forall (i : nat) (w : Z * Z),
        windows !! i = Some w -> w.1 = Z.of_nat i * step).
Proof.
  intros lines step windows.
  assert (Hstep : 0 < step) by (subst step; lia).
  pose proof (chunk_text_omap text c o) as Hy. fold lines windows in Hy.
  pose proof (chunk_windows_spec text c o) as Hw.
  cbv zeta in Hw. fold lines step windows in Hw.
  assert (Hin : forall t, t ∈ chunk_text text c o ->
            exists w, w ∈ windows
                      /\ window_text lines w.1 w.2 <> []
                      /\ t = (window_text lines w.1 w.2, w.1 + 1, w.2)).
  { intros t Ht. rewrite Hy in Ht.
    apply list_elem_of_omap in Ht as (w & Hwin & Hb). exists w.
    unfold body_yield in Hb. destruct (truthy _) eqn:Ht; [|done].
    apply truthy_nonempty in Ht. inversion Hb. done. }
  split; [|split; [exact Hy|split; [|split]]].
  - intros Hsp. rewrite Hy. clear Hw Hin Hy.
    induction windows as [|w ws IH]; [done|].
    cbn [omap list_omap]. rewrite IH. unfold body_yield, window_text.
    rewrite strip_all_space; [done|].
    apply join_Forall; [by repeat constructor|].
    by apply slice_Forall, splitlines_Forall.
  - apply Forall_forall. intros t Ht.
    destruct (Hin t Ht) as (w & Hwin & Hne & ->). simpl.
    replace (w.1 + 1 - 1) with w.1 by lia.
    split; [done|]. split; [by destruct w|done].
  - intros w Hwin Hempty t Ht Heq.
    destruct (Hin t Ht) as (w' & Hwin' & Hne & ->). simpl in Heq.
    rewrite Hw in Hwin, Hwin'.
    apply list_elem_of_fmap in Hwin as (k & -> & _).
    apply list_elem_of_fmap in Hwin' as (k' & -> & _).
    simpl in *. assert (k' = k) as -> by nia. done.
  - intros i w Hi. rewrite Hw, list_lookup_fmap in Hi.
    destruct (seq 0 _ !! i) as [k|] eqn:Hk; [|done].
    apply lookup_seq in Hk as [-> _]. inversion Hi. done.
Qed.

Lemma length_omap_filter {A B} (f : A -> option B) (P : A -> Prop)
  `{!forall x, Decision (P x)} (l : list A) :
  (forall x, P x <-> f x = None) ->
  (length (omap f l) + length (filter P l) = length l)%nat.
Proof.
  intros HP. induction l as [|x l IH]; [done|].
  cbn [omap list_omap]. rewrite filter_cons.
  destruct (decide (P x)) as [Hx|Hx].
  - apply HP in Hx as Hx'. rewrite Hx'. simpl. lia.
  - destruct (f x) as [y|] eqn:Hfx; [simpl; lia|]. by apply HP in Hfx.
Qed.

(** C3, as the code has it: with [0 <= o < c] and [L > 0] lines, the
    number of chunks yielded is [ceil(L / max(1, c - o))] minus the
    number of windows whose text strips to empty; the last window ends
    at line [L], and the last yielded chunk's [end_line] is [L]
    whenever that last window does not strip to empty. *)
Theorem chunk_text_count (text : pystr) (c o : Z) :
  let lines := splitlines text in
  let L := len lines in
  let step := Z.max 1 (c - o) in
  let windows := chunk_windows text c o in
  let n := cdiv L step in
  0 < L -> 0 <= o < c ->
  (n - 1) * step < L <= n * step
  /\ Z.of_nat (length (chunk_text text c o)) =
     n - Z.of_nat (length (filter (fun w : Z * Z =>
                                     window_text lines w.1 w.2 = [])
                             windows))
  /\ (exists s, last windows = Some (s, L))
  /\ (forall s e, last windows = Some (s, e) ->
        window_text lines s e <> [] ->
        last (chunk_text text c o) = Some (window_text lines s e, s + 1, L)).
Proof.
  intros lines L step windows n HL Ho.
  assert (Hstep : 0 < step) by (subst step; lia).
  pose proof (cdiv_bounds L step Hstep) as Hn. fold n in Hn.
  pose proof (chunk_text_omap text c o) as Hy. fold lines windows in Hy.
  pose proof (chunk_windows_spec text c o) as Hw.
  cbv zeta in Hw. fold lines L step windows n in Hw.
  assert (Hlast : last windows = Some ((n - 1) * step, L)).
  { rewrite Hw, fmap_last.
    assert (Z.to_nat n = S (Z.to_nat (n - 1))) as -> by nia.
    rewrite seq_S, last_snoc. simpl. f_equal. f_equal; [f_equal; nia|].
    assert (step <= c) by (subst step; lia). nia. }
  split; [exact Hn|]. split; [|split].
  - pose proof (length_omap_filter (body_yield lines)
                  (fun w : Z * Z => window_text lines w.1 w.2 = []) windows)
      as Hlen.
    rewrite Hy.
    assert (Z.of_nat (length windows) = n) as <-.
    { rewrite Hw, length_fmap, length_seq. nia. }
    rewrite <- Hlen; [lia|].
    intros w. unfold body_yield.
    destruct (truthy _) eqn:Ht.
    + apply truthy_nonempty in Ht. split; [done|congruence].
    + split; [done|]. intros _. destruct (window_text _ _ _); done.
  - eauto.
  - intros s e Hse Hne. rewrite Hlast in Hse. inversion Hse; subst s e.
    apply last_Some in Hlast as [ws Hws]. rewrite Hy, Hws, omap_app.
    cbn [omap list_omap]. unfold body_yield at 2. simpl.
    apply truthy_nonempty in Hne as ->. by rewrite last_snoc.
Qed.

Lemma chunk_text_windows_witness :
  0 < len (splitlines sample_text) /\ 0 < 2
  /\ chunk_windows sample_text 2 1 = [(0, 2); (1, 3); (2, 4); (3, 5); (4, 5)]
  /\ (fun t : pystr * Z * Z => (t.1.2, t.2)) <$> chunk_text sample_text 2 1
     = [(1, 2); (2, 3); (4, 5); (5, 5)].
Proof.
  pose proof (chunk_text_windows sample_text 2 1 ltac:(vm_compute; reflexivity)
                ltac:(lia)) as (Hw & _ & _ & _ & Hy & _).
  split; [vm_compute; reflexivity|]. split; [lia|]. split.
  - rewrite Hw. vm_compute. reflexivity.
  - rewrite Hy, Hw. vm_compute. reflexivity.
Defined.

Lemma chunk_text_strips_witness :
  Forall (fun ch => is_space ch = true) (py "  " ++ NL ++ py " ")
  /\ chunk_text (py "  " ++ NL ++ py " ") 40 10 = [].
Proof.
  assert (H : Forall (fun ch => is_space ch = true) (py "  " ++ NL ++ py " "))
    by (repeat constructor).
  split; [exact H|].
  exact (proj1 (chunk_text_strips (py "  " ++ NL ++ py " ") 40 10) H).
Defined.

Lemma chunk_text_count_witness :
  0 < len (splitlines sample_text) /\ 0 <= 1 < 2
  /\ Z.of_nat (length (chunk_text sample_text 2 1)) = 5 - 1
  /\ last (chunk_text sample_text 2 1) = Some (py "c", 5, 5).
Proof.
  pose proof (chunk_text_count sample_text 2 1 ltac:(vm_compute; reflexivity)
                ltac:(lia)) as (_ & Hlen & _ & Hlast).
  split; [vm_compute; reflexivity|]. split; [lia|]. split.
  - rewrite Hlen. vm_compute. reflexivity.
  - rewrite (Hlast 4 5); [vm_compute; reflexivity .. | ].
    vm_compute. discriminate.
Defined.

(** C3 as stated fails: two lines, one line per window and no overlap;
    the second window is blank, so the only chunk ends at line 1, not
    at line [L = 2]. *)
Lemma chunk_text_last_end_counterexample :
  0 < len (splitlines blank_tail_text) /\ 0 <= 0 < 1
  /\ len (splitlines blank_tail_text) = 2
  /\ chunk_text blank_tail_text 1 0 = [(py "a", 1, 1)]
  /\ ~ (exists chunk start_line,
          last (chunk_text blank_tail_text 1 0)
          = Some (chunk, start_line, len (splitlines blank_tail_text))).
Proof.
  split; [vm_compute; reflexivity|]. split; [lia|].
  split; [vm_compute; reflexivity|]. split; [vm_compute; reflexivity|].
  intros (chunk & s & H). vm_compute in H. discriminate H.
Qed.

End ChunkerSpec.

(** ** Batching *)

Module BatchingSpec.
Import Batching.

Section batched.
Context {A : Type}.
Implicit Types (batch items : list A) (size : Z).

(** Invariant of the loop: the accumulator is always short of a full
    batch when an iteration starts. *)
Lemma batched_loop_spec size batch items :
  0 < size -> len batch < size ->
  concat (batched_loop size batch items) = batch ++ items
  /\ Forall (fun b => 1 <= len b <= size) (batched_loop size batch items)
  /\ (forall (i : nat) b,
        batched_loop size batch items !! i = Some b ->
        (S i < length (batched_loop size batch items))%nat ->
        len b = size).
Proof.
  intros Hsize. revert batch.
  induction items as [|item rest IH]; intros batch Hbatch; simpl.
  - destruct batch as [|x batch]; simpl.
    + split; [done|]. split; [constructor|]. intros i b Hi. done.
    + split; [by rewrite !app_nil_r|]. split.
      * constructor; [|constructor]. unfold len in *. simpl in *. lia.
      * intros i b _ Hi. simpl in Hi. lia.
  - assert (Hlen : len (batch ++ [item]) = len batch + 1).
    { unfold len. rewrite length_app. simpl. lia. }
    destruct (Z.geb_spec (len (batch ++ [item])) size) as [Hfull|Hshort].
    + destruct (IH []) as (Hc & Hall & Hfulls); [unfold len; simpl; lia|].
      split; [|split].
      * simpl. rewrite Hc. by rewrite <- app_assoc.
      * constructor; [lia|done].
      * intros [|i] b Hi Hlt; simpl in *.
        -- inversion Hi; subst b. lia.
        -- apply (Hfulls i b Hi). lia.
    + destruct (IH (batch ++ [item])) as (Hc & Hall & Hfulls); [lia|].
      split; [|done]. rewrite Hc. by rewrite <- app_assoc.
Qed.
End batched.

(** C7: for a positive batch size [B], the lists yielded by [batched]
    concatenate back to the input in order; every yielded list except
    possibly the last has exactly [B] elements; the last one has
    between 1 and [B]; no empty list is yielded; and an empty input
    yields no batch. *)
Theorem batched_partition {A : Type} (items : list A) (B : Z) :
  0 < B ->
  concat (batched items B) = items
  /\ (forall (i : nat) (b : list A),
        batched items B !! i = Some b ->
        (S i < length (batched items B))%nat -> len b = B)
  /\ (forall b : list A, last (batched items B) = Some b -> 1 <= len b <= B)
  /\ Forall (fun b : list A => b <> []) (batched items B)
  /\ (items = [] -> batched items B = []).
Proof.
  intros HB. unfold batched.
  destruct (batched_loop_spec B [] items HB) as (Hc & Hall & Hfull);
    [unfold len; simpl; lia|].
  split; [exact Hc|]. split; [exact Hfull|]. split; [|split].
  - intros b Hb. apply last_Some_elem_of in Hb.
    rewrite Forall_forall in Hall. by apply Hall.
  - eapply Forall_impl; [exact Hall|]. intros b Hb ->. unfold len in Hb.
    simpl in Hb. lia.
  - intros ->. done.
Qed.

Lemma batched_partition_witness :
  0 < 2
  /\ batched [1; 2; 3; 4; 5]%nat 2 = [[1; 2]; [3; 4]; [5]]%nat
  /\ concat (batched [1; 2; 3; 4; 5]%nat 2) = [1; 2; 3; 4; 5]%nat.
Proof.
  split; [lia|]. split; [reflexivity|].
  exact (proj1 (batched_partition [1; 2; 3; 4; 5]%nat 2 ltac:(lia))).
Defined.

End BatchingSpec.

(** ** The file selector *)

Module FileSelectorSpec.

Lemma overflow_threshold_pos : (0 < overflow_threshold)%Q.
Proof. unfold overflow_threshold. vm_compute. reflexivity. Qed.

(** The comparison [st_size > max_bytes], read over the rationals. *)
Lemma int_gt_scale_false (mb : pyfloat) (size : Z) (q : Q) :
  int_gt size (scale (scale mb 1024) 1024) = false ->
  mb = Finite q ->
  (inject_Z size < overflow_threshold)%Q ->
  (inject_Z size <= q * inject_Z 1024 * inject_Z 1024)%Q.
Proof.
  intros Hgt -> Hsize. pose proof overflow_threshold_pos as Hpos.
  assert (H1024 : (inject_Z 1024 == 1024)%Q) by reflexivity.
  unfold scale in Hgt at 2.
  destruct (Qle_bool overflow_threshold (q * inject_Z 1024)) eqn:H1.
  { apply Qle_bool_iff in H1. rewrite H1024 in *. lra. }
  destruct (Qle_bool (q * inject_Z 1024) (- overflow_threshold)) eqn:H2.
  { simpl in Hgt. done. }
  unfold scale in Hgt.
  destruct (Qle_bool overflow_threshold (q * inject_Z 1024 * inject_Z 1024))
    eqn:H3.
  { apply Qle_bool_iff in H3. lra. }
  destruct (Qle_bool (q * inject_Z 1024 * inject_Z 1024) (- overflow_threshold))
    eqn:H4.
  { simpl in Hgt. done. }
  simpl in Hgt. apply negb_false_iff, Qle_bool_iff in Hgt. exact Hgt.
Qed.

Section selector.
Variable lower : pystr -> pystr.

(** A path the loop skips with [continue]: membership comes from the
    rest of the walk. *)
Ltac skipped IH :=
  let H := fresh "H" in
  intros H; destruct (IH H); split; [by right|done].

Lemma iter_code_files_elem tree extensions include_hidden max_file_mb path :
  path ∈ yielded (iter_code_files lower tree extensions include_hidden
                    max_file_mb) ->
  path ∈ reached tree
  /\ selected lower extensions include_hidden max_file_mb path.
Proof.
  induction tree as [|p rest IH]; simpl; [by intros ?%elem_of_nil|].
  destruct (is_file p) as [exc|[|]] eqn:Hfile; simpl;
    [by intros ?%elem_of_nil| |skipped IH].
  destruct (negb include_hidden && existsb starts_with_dot (relative_parts p))
    eqn:Hhid; [skipped IH|].
  destruct (match extensions with [] => false | _ :: _ => true end
            && negb (bool_decide (lower (suffix p) ∈ extensions)))
    eqn:Hext; [skipped IH|].
  destruct (stat_size p) as [e|size] eqn:Hstat; [skipped IH|].
  destruct (int_gt size _) eqn:Hgt; [skipped IH|].
  simpl. intros [Heq|H]%elem_of_cons;
    [subst p|destruct (IH H); split; [by right|done]].
  split; [by left|]. split; [done|]. split; [|split].
  - intros ->. simpl in Hhid. apply Forall_forall. intros part Hpart.
    destruct (starts_with_dot part) eqn:Hdot; [|done].
    assert (existsb starts_with_dot (relative_parts path) = true) as Hex.
    { apply existsb_exists. exists part. split; [|done].
      by apply list_elem_of_In. }
    congruence.
  - intros Hne. destruct extensions as [|x xs]; [done|]. simpl in Hext.
    apply negb_false_iff, bool_decide_eq_true in Hext. done.
  - eauto.
Qed.
End selector.

(** The paths the loop comes to are the first paths of the walk. *)
Lemma reached_prefix (tree : list Path) : reached tree `prefix_of` tree.
Proof.
  induction tree as [|p rest IH]; simpl; [done|].
  destruct (is_file p); [apply prefix_nil|by apply prefix_cons].
Qed.

Lemma reached_elem (tree : list Path) (path : Path) :
  path ∈ reached tree -> path ∈ tree.
Proof.
  intros Hin. destruct (reached_prefix tree) as [rest ->].
  apply elem_of_app. by left.
Qed.

(** When every [is_file()] of the walk answers, the loop comes to every
    path. *)
Lemma reached_all (tree : list Path) :
  Forall (fun p : Path => exists regular, is_file p = inr regular) tree ->
  reached tree = tree.
Proof.
  induction 1 as [|p rest [regular Hp] _ IH]; simpl; [done|].
  by rewrite Hp, IH.
Qed.

(** Every path yielded by [iter_code_files] is one of the walk's paths
    and a regular file; unless [include_hidden] is set, none of its
    components relative to the root starts with a dot; when the
    allow-list is not empty its lower-cased suffix is in it; its size
    can be read and is not greater than [max_file_mb * 1024 * 1024]; a
    path whose size cannot be read is not yielded; and when
    [is_file()] answered for such a path, the error of [stat()] is
    swallowed: the generator does what it does on the other paths. *)
Theorem iter_code_files_filters (lower : pystr -> pystr) (tree : list Path)
  (extensions : list pystr) (include_hidden : bool) (max_file_mb : pyfloat) :
  Forall (fun path : Path =>
            path ∈ tree
            /\ is_file path = inr true
            /\ (include_hidden = false ->
                Forall (fun part => starts_with_dot part = false)
                  (relative_parts path))
            /\ (extensions <> [] -> lower (suffix path) ∈ extensions)
            /\ exists size : Z,
                 stat_size path = inr size
                 /\ int_gt size (scale (scale max_file_mb 1024) 1024) = false
                 /\ (forall q : Q,
                       max_file_mb = Finite q ->
                       (inject_Z size < overflow_threshold)%Q ->
                       (inject_Z size <= q * inject_Z 1024 * inject_Z 1024)%Q))
    (yielded (iter_code_files lower tree extensions include_hidden
                max_file_mb))
  /\ (forall (path : Path) (e : OSError),
        stat_size path = inl e ->
        path ∉ yielded (iter_code_files lower tree extensions include_hidden
                          max_file_mb))
  /\ (forall (bad : Path) (e : OSError) (regular : bool)
        (before after : list Path),
        is_file bad = inr regular ->
        stat_size bad = inl e ->
        iter_code_files lower (before ++ bad :: after) extensions
          include_hidden max_file_mb
        = iter_code_files lower (before ++ after) extensions
            include_hidden max_file_mb).
Proof.
  split; [|split].
  - apply Forall_forall. intros path Hin.
    apply iter_code_files_elem in Hin as (Htree & Hfile & Hhid & Hext & Hsz).
    destruct Hsz as (size & Hstat & Hgt). apply reached_elem in Htree.
    split; [done|]. split; [done|]. split; [done|]. split; [done|].
    exists size. split; [done|]. split; [done|].
    intros q Hq Hsize. by eapply int_gt_scale_false.
  - intros path e Hstat Hin.
    apply iter_code_files_elem in Hin as (_ & _ & _ & _ & size & Hsz & _).
    congruence.
  - intros bad e regular before after Hfile Hstat.
    induction before as [|p before IH]; simpl.
    + rewrite Hfile, Hstat.
      by repeat destruct (_ && _); destruct (negb _).
    + by rewrite IH.
Qed.

Section failing_input.
Import Samples.

(** C8: where the code leaves the claim.  The file [locked/h.py] cannot
    be stat'ed at all, and [is_file()] raises the [PermissionError]
    outside the [try]: the generator yields [g.py] and then raises, and
    [README.MD], which passes every filter, is never yielded.  Had the
    file been skipped, the walk would have given [g.py] and
    [README.MD]. *)
Theorem iter_code_files_raises_when_stat_is_denied :
  stat_size denied_file = inl (os_error (py "[Errno 13] Permission denied"))
  /\ iter_code_files ascii_lower [abc_file; denied_file; upper_file]
       [py ".py"; py ".md"] false (Finite 2)
     = {| yielded := [abc_file];
          raised := Some (os_error (py "[Errno 13] Permission denied")) |}
  /\ iter_code_files ascii_lower [abc_file; upper_file]
       [py ".py"; py ".md"] false (Finite 2)
     = {| yielded := [abc_file; upper_file]; raised := None |}.
Proof. repeat split; vm_compute; reflexivity. Qed.
End failing_input.

End FileSelectorSpec.

(** ** The chunk assembler *)

Module AssemblerSpec.
Import Chunker Assembler Samples ChunkerFacts ChunkerSpec.

Section assembler.
Variable lower : pystr -> pystr.
Implicit Types (tree : list Path) (path : Path) (text : pystr).

Lemma iter_code_files_cons path tree extensions include_hidden max_file_mb :
  yielded (iter_code_files lower (path :: tree) extensions include_hidden
             max_file_mb)
  = yielded (iter_code_files lower [path] extensions include_hidden
               max_file_mb)
    ++ match is_file path with
       | inl _ => []
       | inr _ =>
           yielded (iter_code_files lower tree extensions include_hidden
                      max_file_mb)
       end.
Proof.
  simpl. destruct (is_file path) as [exc|regular]; [done|].
  destruct (negb regular); [done|].
  destruct (_ && _); [done|]. destruct (_ && _); [done|].
  destruct (stat_size path); [done|]. by destruct (int_gt _ _).
Qed.

(** The ids of one file's chunks number them from zero. *)
Lemma chunks_of_path_ids source_dir c o collection path text :
  read_text path = inr text ->
  doc_id <$> chunks_of_path source_dir c o collection path
  = make_doc_id (as_posix (relative_parts path))
      <$> seq 0 (length (chunk_text text c o)).
Proof.
  intros Hread. unfold chunks_of_path. rewrite Hread, fmap_imap.
  rewrite <- imap_seq_0. apply imap_ext.
  intros i [[chunk s] e] _. done.
Qed.

(** The line range stored with a chunk is the one the chunker
    reported. *)
Lemma chunks_of_path_ranges source_dir c o collection path text :
  read_text path = inr text ->
  line_range <$> chunks_of_path source_dir c o collection path
  = (fun t : pystr * Z * Z =>
       (Some (str_of_Z t.1.2), Some (str_of_Z t.2)))
      <$> chunk_text text c o.
Proof.
  intros Hread. unfold chunks_of_path. rewrite Hread, fmap_imap.
  rewrite <- (imap_const _ (chunk_text text c o)). apply imap_ext.
  intros i [[chunk s] e] _. done.
Qed.

Lemma discover_chunks_selected path source_dir exts hidden mb c o collection :
  yielded (iter_code_files lower [path] exts hidden mb) = [path] ->
  yielded (discover_chunks lower [path] source_dir exts hidden mb c o
             collection)
  = chunks_of_path source_dir c o collection path.
Proof.
  intros Hsel. unfold discover_chunks. cbn [yielded]. rewrite Hsel.
  apply bind_singleton.
Qed.

(** The chunks that survive are the non-blank windows, in order. *)
Lemma chunk_text_survivors text c o :
  chunk_text text c o
  = (fun w : Z * Z => (window_text (splitlines text) w.1 w.2, w.1 + 1, w.2))
      <$> filter (fun w => window_text (splitlines text) w.1 w.2 <> [])
            (chunk_windows text c o).
Proof.
  rewrite chunk_text_omap.
  induction (chunk_windows text c o) as [|w ws IH]; [done|].
  cbn [omap list_omap]. rewrite filter_cons, IH. unfold body_yield.
  destruct (decide (window_text (splitlines text) w.1 w.2 <> []))
    as [Hne|He].
  - by apply truthy_nonempty in Hne as ->.
  - destruct (truthy _) eqn:Ht; [|done]. by apply truthy_nonempty in Ht.
Qed.
End assembler.

Lemma filter_complement_length {A} (P Q : A -> Prop)
  `{!forall x, Decision (P x)} `{!forall x, Decision (Q x)} (l : list A) :
  (forall x, Q x <-> ~ P x) ->
  (length (filter P l) + length (filter Q l) = length l)%nat.
Proof.
  intros HQ. induction l as [|x l IH]; [done|].
  rewrite !filter_cons.
  destruct (decide (P x)) as [HP|HP], (decide (Q x)) as [Hq|Hq]; simpl;
    try lia; exfalso; by apply HQ in HP || apply HQ in Hq.
Qed.

(** Where an element that passes a filter lands in the filtered list. *)
Lemma filter_lookup {A} (P : A -> Prop) `{!forall x, Decision (P x)}
  (l : list A) (k : nat) (x : A) :
  l !! k = Some x -> P x ->
  filter P l !! length (filter P (take k l)) = Some x.
Proof.
  intros Hk HP.
  transitivity (filter P (take k l ++ x :: drop (S k) l)
                  !! length (filter P (take k l)));
    [by rewrite take_drop_middle|].
  rewrite filter_app, lookup_app_r by lia.
  rewrite Nat.sub_diag, filter_cons_True by done. done.
Qed.

(** C2, as the code has it: a 100-line file without blank windows,
    ingested with [chunk_lines = 40] and [chunk_overlap = 10] (step
    30), gives four chunks, covering the lines 1-40, 31-70, 61-100 and
    91-100, with the ids [<relative_path>::0] to [<relative_path>::3]:
    the start 90 is still below 100, so the loop runs a fourth time. *)
Theorem ingest_hundred_lines (lower : pystr -> pystr) (path : Path)
  (text source_dir : pystr) (exts : list pystr) (hidden : bool)
  (mb : pyfloat) (collection : pystr) :
  yielded (iter_code_files lower [path] exts hidden mb) = [path] ->
  read_text path = inr text ->
  len (splitlines text) = 100 ->
  Forall (fun w : Z * Z => window_text (splitlines text) w.1 w.2 <> [])
    (chunk_windows text 40 10) ->
  Z.max 1 (40 - 10) = 30
  /\ (fun t : pystr * Z * Z => (t.1.2, t.2)) <$> chunk_text text 40 10
     = [(1, 40); (31, 70); (61, 100); (91, 100)]
  /\ (fun ch => (doc_id ch, line_range ch))
       <$> yielded (discover_chunks lower [path] source_dir exts hidden mb 40 10
             collection)
     = [(as_posix (relative_parts path) ++ py "::0",
         (Some (py "1"), Some (py "40")));
        (as_posix (relative_parts path) ++ py "::1",
         (Some (py "31"), Some (py "70")));
        (as_posix (relative_parts path) ++ py "::2",
         (Some (py "61"), Some (py "100")));
        (as_posix (relative_parts path) ++ py "::3",
         (Some (py "91"), Some (py "100")))].
Proof.
  intros Hsel Hread HL Hfull.
  assert (Hw : chunk_windows text 40 10
               = [(0, 40); (30, 70); (60, 100); (90, 100)]).
  { rewrite chunk_windows_spec. cbv zeta. rewrite HL. reflexivity. }
  assert (Hy : chunk_text text 40 10
               = (fun w : Z * Z =>
                    (window_text (splitlines text) w.1 w.2, w.1 + 1, w.2))
                   <$> [(0, 40); (30, 70); (60, 100); (90, 100)]).
  { rewrite chunk_text_survivors, Hw. rewrite Hw in Hfull.
    f_equal. clear -Hfull.
    induction Hfull as [|w ws Hne _ IH]; [done|].
    by rewrite filter_cons_True, IH. }
  split; [reflexivity|]. split; [by rewrite Hy|].
  rewrite (discover_chunks_selected lower) by done.
  unfold chunks_of_path. rewrite Hread, Hy. reflexivity.
Qed.

(** The sample file has 100 lines and none of its windows is blank. *)
Lemma hundred_lines_shape :
  len (splitlines hundred_lines) = 100
  /\ Forall (fun w : Z * Z =>
               window_text (splitlines hundred_lines) w.1 w.2 <> [])
       (chunk_windows hundred_lines 40 10).
Proof.
  split; [vm_compute; reflexivity|].
  apply Forall_forall. intros w Hw.
  assert (Hws : chunk_windows hundred_lines 40 10
                = [(0, 40); (30, 70); (60, 100); (90, 100)])
    by (vm_compute; reflexivity).
  rewrite Hws in Hw.
  repeat (apply elem_of_cons in Hw as [->|Hw];
          [vm_compute; discriminate|]).
  by apply elem_of_nil in Hw.
Qed.

(** C2 as stated fails: the 100-line file of lines ["x"] has no blank
    window and gives four chunks, not three. *)
Lemma ingest_hundred_lines_counterexample :
  len (splitlines hundred_lines) = 100
  /\ Forall (fun w : Z * Z =>
               window_text (splitlines hundred_lines) w.1 w.2 <> [])
       (chunk_windows hundred_lines 40 10)
  /\ doc_id <$> yielded (discover_chunks ascii_lower [hundred_file] (py "/repo")
                  [py ".py"] false (Finite 2) 40 10 (py "code-rag"))
     = [py "src/f.py::0"; py "src/f.py::1"; py "src/f.py::2";
        py "src/f.py::3"]
  /\ line_range <$> yielded (discover_chunks ascii_lower [hundred_file]
                               (py "/repo") [py ".py"] false (Finite 2) 40 10
                               (py "code-rag"))
     = [(Some (py "1"), Some (py "40")); (Some (py "31"), Some (py "70"));
        (Some (py "61"), Some (py "100")); (Some (py "91"), Some (py "100"))]
  /\ length (yielded (discover_chunks ascii_lower [hundred_file] (py "/repo")
               [py ".py"] false (Finite 2) 40 10 (py "code-rag"))) <> 3%nat.
Proof.
  destruct hundred_lines_shape as [HL Hfull].
  split; [exact HL|]. split; [exact Hfull|].
  split; [vm_compute; reflexivity|]. split; [vm_compute; reflexivity|].
  vm_compute. discriminate.
Qed.

Lemma ingest_hundred_lines_witness :
  yielded (iter_code_files ascii_lower [hundred_file] [py ".py"] false
             (Finite 2))
  = [hundred_file]
  /\ read_text hundred_file = inr hundred_lines
  /\ len (splitlines hundred_lines) = 100
  /\ (fun t : pystr * Z * Z => (t.1.2, t.2)) <$> chunk_text hundred_lines 40 10
     = [(1, 40); (31, 70); (61, 100); (91, 100)].
Proof.
  destruct hundred_lines_shape as [HL Hfull].
  assert (Hsel : yielded (iter_code_files ascii_lower [hundred_file]
                            [py ".py"] false (Finite 2)) = [hundred_file])
    by (vm_compute; reflexivity).
  split; [exact Hsel|]. split; [reflexivity|]. split; [exact HL|].
  exact (proj1 (proj2 (ingest_hundred_lines ascii_lower hundred_file
                         hundred_lines (py "/repo") [py ".py"] false
                         (Finite 2) (py "code-rag") Hsel eq_refl HL Hfull))).
Defined.

(** C4: the ids [discover_chunks] yields are, file by file in the
    order of selection, [<posix-relative-path>::<n>] with [n] counting
    that file's chunks from zero; and they are a function of the
    selected files' relative paths and contents and of the chunking
    parameters only, so a second run over the same contents yields the
    same ids in the same order. *)
Theorem discover_chunks_ids (lower : pystr -> pystr) (tree : list Path)
  (source_dir : pystr) (exts : list pystr) (hidden : bool) (mb : pyfloat)
  (c o : Z) (collection : pystr) :
  let files := yielded (iter_code_files lower tree exts hidden mb) in
  let file_ids := fun '(parts, content) =>
    match content with
    | inl _ => []
    | inr text =>
        (fun n : nat => as_posix parts ++ py "::" ++ str_of_Z (Z.of_nat n))
          <$> seq 0 (length (chunk_text text c o))
    end in
  doc_id <$> yielded (discover_chunks lower tree source_dir exts hidden mb c o
                        collection)
  = ((fun p : Path => (relative_parts p, read_text p)) <$> files) ≫= file_ids
  /\ (forall (tree' : list Path) (source_dir' : pystr) (exts' : list pystr)
        (hidden' : bool) (mb' : pyfloat) (collection' : pystr),
        (fun p : Path => (relative_parts p, read_text p))
          <$> yielded (iter_code_files lower tree' exts' hidden' mb')
        = (fun p : Path => (relative_parts p, read_text p)) <$> files ->
        doc_id <$> yielded (discover_chunks lower tree' source_dir' exts'
                              hidden' mb' c o collection')
        = doc_id <$> yielded (discover_chunks lower tree source_dir exts hidden
                                mb c o collection)).
Proof.
  intros files file_ids.
  assert (Hids : forall tree0 source_dir0 exts0 hidden0 mb0 collection0,
    doc_id <$> yielded (discover_chunks lower tree0 source_dir0 exts0 hidden0
                          mb0 c o collection0)
    = ((fun p : Path => (relative_parts p, read_text p))
         <$> yielded (iter_code_files lower tree0 exts0 hidden0
                        mb0)) ≫= file_ids).
  { intros tree0 source_dir0 exts0 hidden0 mb0 collection0.
    unfold discover_chunks. cbn [yielded]. rewrite list_fmap_bind.
    induction (yielded (iter_code_files lower tree0 exts0 hidden0
                          mb0)) as [|p ps IH];
      [done|].
    rewrite !bind_cons, fmap_app, IH. f_equal. simpl.
    destruct (read_text p) as [e|text] eqn:Hread.
    - unfold chunks_of_path. by rewrite Hread.
    - by rewrite (chunks_of_path_ids _ _ _ _ _ text). }
  split; [apply Hids|].
  intros tree' source_dir' exts' hidden' mb' collection' Hsame.
  by rewrite !Hids, Hsame.
Qed.

Lemma discover_chunks_ids_witness :
  doc_id <$> yielded (discover_chunks ascii_lower
               [directory; abc_file; unstatable_file; hundred_file]
               (py "/repo") [py ".py"] false (Finite 2) 2 0 (py "code-rag"))
  = [py "g.py::0"; py "g.py::1"] ++
    ((fun n : nat => py "src/f.py::" ++ str_of_Z (Z.of_nat n)) <$> seq 0 50).
Proof.
  rewrite (proj1 (discover_chunks_ids ascii_lower
                    [directory; abc_file; unstatable_file; hundred_file]
                    (py "/repo") [py ".py"] false (Finite 2) 2 0
                    (py "code-rag"))).
  vm_compute. reflexivity.
Defined.

(** C10: for a selected, readable file the ids are [<path>::0] to
    [<path>::<k-1>], where [k] is the number of windows that survive
    stripping; the chunk numbered [j] is the [j]-th surviving window,
    so a surviving window in position [i] of the windows gets the
    index [i] minus the number of blank windows before it; and two
    chunks with the same path and the same line range can have
    different indices. *)
Theorem chunk_ids_count_survivors (lower : pystr -> pystr) (path : Path)
  (text source_dir : pystr) (exts : list pystr) (hidden : bool)
  (mb : pyfloat) (c o : Z) (collection : pystr) :
  yielded (iter_code_files lower [path] exts hidden mb) = [path] ->
  read_text path = inr text ->
  let lines := splitlines text in
  let rel := as_posix (relative_parts path) in
  let windows := chunk_windows text c o in
  let survivors :=
    filter (fun w : Z * Z => window_text lines w.1 w.2 <> []) windows in
  let chunks :=
    yielded (discover_chunks lower [path] source_dir exts hidden mb c o
               collection) in
  doc_id <$> chunks
  = (fun n : nat => rel ++ py "::" ++ str_of_Z (Z.of_nat n))
      <$> seq 0 (length survivors)
  /\ line_range <$> chunks
     = (fun w : Z * Z => (Some (str_of_Z (w.1 + 1)), Some (str_of_Z w.2)))
         <$> survivors
  /\ (forall (i : nat) (w : Z * Z),
        windows !! i = Some w -> window_text lines w.1 w.2 <> [] ->
        let blanks :=
          length (filter (fun w : Z * Z => window_text lines w.1 w.2 = [])
                    (take i windows)) in
        (blanks <= i)%nat
        /\ doc_id <$> chunks !! (i - blanks)%nat
           = Some (rel ++ py "::" ++ str_of_Z (Z.of_nat (i - blanks)))
        /\ line_range <$> chunks !! (i - blanks)%nat
           = Some (Some (str_of_Z (w.1 + 1)), Some (str_of_Z w.2)))
  /\ (exists ch1 ch2 : Chunk,
        ch1 ∈ yielded (discover_chunks lower [abc_file] source_dir [] true
                         PosInf 1 0 collection)
        /\ ch2 ∈ yielded (discover_chunks lower [a_c_file] source_dir [] true
                            PosInf 1 0 collection)
        /\ metadata ch1 !! py "path" = metadata ch2 !! py "path"
        /\ line_range ch1 = line_range ch2
        /\ doc_id ch1 = py "g.py::2" /\ doc_id ch2 = py "g.py::1").
Proof.
  intros Hsel Hread lines rel windows survivors chunks.
  assert (Hchunks : chunks = chunks_of_path source_dir c o collection path)
    by (by apply discover_chunks_selected).
  assert (Hlen : length (chunk_text text c o) = length survivors)
    by (by rewrite chunk_text_survivors, length_fmap).
  assert (Hids : doc_id <$> chunks
                 = (fun n : nat => rel ++ py "::" ++ str_of_Z (Z.of_nat n))
                     <$> seq 0 (length survivors)).
  { rewrite Hchunks, (chunks_of_path_ids _ _ _ _ _ text), Hlen by done.
    done. }
  assert (Hranges : line_range <$> chunks
                    = (fun w : Z * Z =>
                         (Some (str_of_Z (w.1 + 1)), Some (str_of_Z w.2)))
                        <$> survivors).
  { rewrite Hchunks, (chunks_of_path_ranges _ _ _ _ _ text) by done.
    rewrite chunk_text_survivors, <- list_fmap_compose. done. }
  split; [exact Hids|]. split; [exact Hranges|]. split.
  - intros i w Hi Hne blanks.
    pose proof (filter_lookup
                  (fun w : Z * Z => window_text lines w.1 w.2 <> [])
                  windows i w Hi Hne) as Hpos.
    assert (Hsplit :
      (length (filter (fun w : Z * Z => window_text lines w.1 w.2 <> [])
                 (take i windows)) + blanks = i)%nat).
    { subst blanks. rewrite filter_complement_length.
      - apply length_take_le, Nat.lt_le_incl, (lookup_lt_Some _ _ _ Hi).
      - intros x. split; [intros Heq Hx; by apply Hx|].
        intros Hx. destruct (decide (window_text lines x.1 x.2 = []));
          [done|]. exfalso. by apply Hx. }
    replace (i - blanks)%nat
      with (length (filter (fun w : Z * Z =>
                              window_text lines w.1 w.2 <> [])
                      (take i windows))) by lia.
    split; [lia|].
    fold survivors in Hpos.
    rewrite <- !list_lookup_fmap, Hids, Hranges, !list_lookup_fmap.
    rewrite Hpos. split; [|done].
    rewrite lookup_seq_lt; [done|]. by apply lookup_lt_Some in Hpos.
  - assert (Ha : yielded (discover_chunks lower [abc_file] source_dir [] true
                            PosInf 1 0 collection)
                 = chunks_of_path source_dir 1 0 collection abc_file)
      by (by apply discover_chunks_selected).
    assert (Hb : yielded (discover_chunks lower [a_c_file] source_dir [] true
                            PosInf 1 0 collection)
                 = chunks_of_path source_dir 1 0 collection a_c_file)
      by (by apply discover_chunks_selected).
    rewrite Ha, Hb.
    assert (Hta : chunk_text (py "a" ++ NL ++ py "b" ++ NL ++ py "c") 1 0
                  = [(py "a", 1, 1); (py "b", 2, 2); (py "c", 3, 3)])
      by (vm_compute; reflexivity).
    assert (Htb : chunk_text (py "a" ++ NL ++ NL ++ py "c") 1 0
                  = [(py "a", 1, 1); (py "c", 3, 3)])
      by (vm_compute; reflexivity).
    unfold chunks_of_path, abc_file, a_c_file, mk_file.
    cbn [read_text relative_parts]. rewrite Hta, Htb.
    eexists _, _. split; [do 2 right; left|]. split; [right; left|].
    split; [done|]. split; [done|]. split; reflexivity.
Qed.

Lemma chunk_ids_count_survivors_witness :
  yielded (iter_code_files ascii_lower [a_c_file] [py ".py"] false (Finite 2))
  = [a_c_file]
  /\ read_text a_c_file = inr (py "a" ++ NL ++ NL ++ py "c")
  /\ doc_id <$> yielded (discover_chunks ascii_lower [a_c_file] (py "/repo")
                  [py ".py"] false (Finite 2) 1 0 (py "code-rag"))
     = [py "g.py::0"; py "g.py::1"]
  /\ line_range <$> yielded (discover_chunks ascii_lower [a_c_file] (py "/repo")
                      [py ".py"] false (Finite 2) 1 0 (py "code-rag"))
     = [(Some (py "1"), Some (py "1")); (Some (py "3"), Some (py "3"))].
Proof.
  assert (Hsel : yielded (iter_code_files ascii_lower [a_c_file] [py ".py"]
                            false (Finite 2)) = [a_c_file])
    by (vm_compute; reflexivity).
  destruct (chunk_ids_count_survivors ascii_lower a_c_file
              (py "a" ++ NL ++ NL ++ py "c") (py "/repo") [py ".py"] false
              (Finite 2) 1 0 (py "code-rag") Hsel eq_refl)
    as (Hids & Hranges & _).
  split; [exact Hsel|]. split; [reflexivity|]. split.
  - rewrite Hids. vm_compute. reflexivity.
  - rewrite Hranges. vm_compute. reflexivity.
Defined.

End AssemblerSpec.

Module FileSelectorExamples.
Import Samples FileSelectorSpec.

Lemma iter_code_files_filters_witness :
  yielded (iter_code_files ascii_lower
             [directory; hidden_file; upper_file; unstatable_file; abc_file]
             [py ".py"; py ".md"] false (Finite 2))
  = [upper_file; abc_file]
  /\ (unstatable_file ∉
      yielded (iter_code_files ascii_lower
                 [directory; hidden_file; upper_file; unstatable_file;
                  abc_file]
                 [py ".py"; py ".md"] false (Finite 2)))
  /\ iter_code_files ascii_lower [upper_file; unstatable_file; abc_file]
       [py ".py"; py ".md"] false (Finite 2)
     = iter_code_files ascii_lower [upper_file; abc_file]
         [py ".py"; py ".md"] false (Finite 2).
Proof.
  split; [vm_compute; reflexivity|]. split.
  - exact (proj1 (proj2 (iter_code_files_filters ascii_lower
                           [directory; hidden_file; upper_file;
                            unstatable_file; abc_file]
                           [py ".py"; py ".md"] false (Finite 2)))
             unstatable_file _ eq_refl).
  - exact (proj2 (proj2 (iter_code_files_filters ascii_lower []
                           [py ".py"; py ".md"] false (Finite 2)))
             unstatable_file _ true [upper_file] [abc_file] eq_refl eq_refl).
Defined.

End FileSelectorExamples.

(** ** The retriever *)

Module RetrieverSpec.
Import Retriever Samples.

Section retriever.
Variable str_of_float : pyfloat -> pystr.
Variable w : world.


(** A reply without the key ["distances"] reads as an empty sequence of
    distances, so [zip] pairs nothing. *)
Lemma clean_results_absent_distances (results : QueryResult) metadatas
  documents :
  first_or_empty (q_metadatas results) = inr metadatas ->
  first_or_empty (q_documents results) = inr documents ->
  q_distances results = Absent ->
  clean_results str_of_float results = inr [].
Proof.
  intros Hm Hd Hx. unfold clean_results. rewrite Hm, Hd, Hx. simpl.
  f_equal. by destruct (zip metadatas documents).
Qed.
End retriever.



End RetrieverSpec.

(** ** The tool surface *)

Module ToolsSpec.
Import Retriever Tools Samples.

(** C9: [query_codebase] with [top_k <= 0], and [list_rows] with
    [limit <= 0] or [offset < 0], raise [ValueError] to the caller and
    leave the log of calls untouched: nothing was resolved, opened,
    queried or read. *)
Theorem tools_validate_before_io (str_of_float : pyfloat -> pystr)
  (w : world)
  (format_context : gmap pystr pystr -> pystr -> pyfloat -> Z -> pystr)
  (simple_summary : pystr -> list (gmap pystr pystr * pystr) -> pystr)
  (_format_rows_output :
     pystr -> pystr -> Z -> Z ->
     list (pystr * gmap pystr pystr * option pystr) -> bool -> pystr)
  (question collection db_dir : pystr) (top_k limit offset : Z)
  (include_documents : bool) (log : list call) :
  (top_k <= 0 ->
   query_codebase str_of_float w format_context simple_summary
     question top_k collection db_dir log
   = (inl (ValueError (py "top_k must be greater than zero.")), log))
  /\ (limit <= 0 ->
      list_rows str_of_float w _format_rows_output
        collection db_dir limit offset include_documents log
      = (inl (ValueError (py "limit must be greater than zero.")), log))
  /\ (0 < limit -> offset < 0 ->
      list_rows str_of_float w _format_rows_output
        collection db_dir limit offset include_documents log
      = (inl (ValueError (py "offset must be zero or greater.")), log)).
Proof.
  split; [|split].
  - intros Hk. unfold query_codebase, _validate_positive, bind.
    destruct (Z.leb_spec top_k 0); [done|lia].
  - intros Hl. unfold list_rows, _validate_positive, bind.
    destruct (Z.leb_spec limit 0); [done|lia].
  - intros Hl Ho. unfold list_rows, _validate_positive, bind.
    destruct (Z.leb_spec limit 0); [lia|]. simpl.
    destruct (Z.ltb_spec offset 0); [done|lia].
Qed.

Lemma tools_validate_before_io_witness :
  query_codebase (fun _ => py "?") sample_world (fun _ _ _ _ => [])
    (fun _ _ => []) (py "q") 0 (py "code-rag") (py "db") []
  = (inl (ValueError (py "top_k must be greater than zero.")), [])
  /\ list_rows (fun _ => py "?") sample_world (fun _ _ _ _ _ _ => [])
       (py "code-rag") (py "db") 10 (-1) false []
     = (inl (ValueError (py "offset must be zero or greater.")), []).
Proof.
  pose proof (tools_validate_before_io (fun _ => py "?") sample_world
                (fun _ _ _ _ => []) (fun _ _ => []) (fun _ _ _ _ _ _ => [])
                (py "q") (py "code-rag") (py "db") 0 10 (-1) false [])
    as (Hq & _ & Hr).
  split; [apply Hq; lia|apply Hr; lia].
Defined.

(** With valid arguments the same tools do reach the store. *)
Lemma valid_calls_reach_the_store :
  snd (query_codebase (fun _ => py "?") sample_world (fun _ _ _ _ => [])
         (fun _ _ => []) (py "q") 5 (py "code-rag") (py "db") [])
  = [Resolve (py "db"); Mkdir (py "/abs/db"); PersistentClient (py "/abs/db");
     GetOrCreateCollection (py "/abs/db") (py "code-rag");
     Query (py "/abs/db") (py "code-rag") (py "q") 5; Resolve (py "db")]
  /\ snd (list_rows (fun _ => py "?") sample_world (fun _ _ _ _ _ _ => [])
            (py "code-rag") (py "db") 10 0 false [])
     = [Resolve (py "db"); PersistentClient (py "/abs/db");
        GetCollection (py "/abs/db") (py "code-rag");
        Count (py "/abs/db") (py "code-rag");
        Get (py "/abs/db") (py "code-rag") 10 0 [py "metadatas"];
        Resolve (py "db")].
Proof. split; vm_compute; reflexivity. Qed.

End ToolsSpec.

(** * Further properties *)

(** ** More on strings: what [strip] leaves *)

Module StripFacts.

(** [lstrip] removes a prefix of whitespace and stops at the first other
    character. *)
Lemma lstrip_split (s : pystr) :
  exists p, s = p ++ lstrip s
            /\ Forall (fun c => is_space c = true) p
            /\ (forall c, head (lstrip s) = Some c -> is_space c = false).
Proof.
  induction s as [|c s (p & Hs & Hp & Hhead)]; simpl.
  - exists []. split; [done|]. split; [constructor|]. intros c Hc. done.
  - destruct (is_space c) eqn:Hc.
    + exists (c :: p). split; [by rewrite Hs at 1|].
      split; [by constructor|done].
    + exists []. split; [done|]. split; [constructor|].
      intros c' Hc'. simpl in Hc'. by inversion Hc'; subst.
Qed.

(** [rstrip] removes a suffix of whitespace and stops at the last other
    character. *)
Lemma rstrip_split (s : pystr) :
  exists q, s = rstrip s ++ q
            /\ Forall (fun c => is_space c = true) q
            /\ (forall c, last (rstrip s) = Some c -> is_space c = false).
Proof.
  unfold rstrip. destruct (lstrip_split (reverse s)) as (p & Hs & Hp & Hhead).
  exists (reverse p). split; [|split].
  - rewrite <- reverse_app, <- Hs. by rewrite reverse_involutive.
  - by apply Forall_reverse.
  - intros c Hc. apply Hhead. by rewrite last_reverse in Hc.
Qed.

(** The first and the last character of a stripped string are not
    whitespace. *)
Lemma strip_ends (s : pystr) :
  (forall c, head (strip s) = Some c -> is_space c = false)
  /\ (forall c, last (strip s) = Some c -> is_space c = false).
Proof.
  unfold strip.
  destruct (lstrip_split s) as (p & _ & _ & Hhead).
  destruct (rstrip_split (lstrip s)) as (q & Hq & _ & Hlast).
  split; [|exact Hlast].
  intros c Hc. apply Hhead. rewrite Hq.
  destruct (rstrip (lstrip s)); [done|exact Hc].
Qed.

Lemma rstrip_last (s : pystr) (c : N) :
  last (rstrip s) = Some c -> is_space c = false.
Proof. destruct (rstrip_split s) as (q & _ & _ & H). apply H. Qed.

End StripFacts.

(** ** More on the chunker *)

Module ChunkerMore.
Import Chunker PyStrFacts ChunkerFacts ChunkerSpec StripFacts Samples.

(** What a yielded triple is made of. *)
Lemma chunk_text_elem text c o (t : pystr * Z * Z) :
  t ∈ chunk_text text c o ->
  exists w : Z * Z,
    w ∈ chunk_windows text c o
    /\ window_text (splitlines text) w.1 w.2 <> []
    /\ t = (window_text (splitlines text) w.1 w.2, w.1 + 1, w.2).
Proof.
  rewrite chunk_text_omap. intros Ht.
  apply list_elem_of_omap in Ht as (w & Hw & Hb). exists w.
  unfold body_yield in Hb. destruct (truthy _) eqn:Ht; [|done].
  apply truthy_nonempty in Ht. by inversion Hb.
Qed.

(** What a candidate window is. *)
Lemma chunk_windows_elem text c o (w : Z * Z) :
  w ∈ chunk_windows text c o ->
  exists k : nat,
    w = (Z.of_nat k * Z.max 1 (c - o),
         Z.min (len (splitlines text)) (Z.of_nat k * Z.max 1 (c - o) + c))
    /\ Z.of_nat k * Z.max 1 (c - o) < len (splitlines text).
Proof.
  rewrite chunk_windows_spec. cbv zeta. intros Hw.
  apply list_elem_of_fmap in Hw as (k & -> & Hk). exists k. split; [done|].
  apply elem_of_seq in Hk. apply count_bound; lia.
Qed.

(** With a positive [chunk_lines] and an overlap that is not negative,
    no line of the file is left out: every line index lies in some
    candidate window. *)
Theorem windows_cover_every_line (text : pystr) (c o i : Z) :
  0 < c -> 0 <= o ->
  0 <= i < len (splitlines text) ->
  exists w : Z * Z, w ∈ chunk_windows text c o /\ w.1 <= i < w.2.
Proof.
  intros Hc Ho Hi. set (step := Z.max 1 (c - o)).
  assert (Hstep : 0 < step) by (subst step; lia).
  assert (Hle : step <= c) by (subst step; lia).
  pose proof (Z.div_mod i step ltac:(lia)) as Hdm.
  pose proof (Z.mod_pos_bound i step Hstep) as Hm.
  assert (Hk : 0 <= i / step) by (apply Z.div_pos; lia).
  exists (Z.of_nat (Z.to_nat (i / step)) * step,
          Z.min (len (splitlines text))
            (Z.of_nat (Z.to_nat (i / step)) * step + c)).
  split.
  - rewrite chunk_windows_spec. cbv zeta. fold step.
    apply (list_elem_of_fmap_2
             (fun k : nat =>
                (Z.of_nat k * step,
                 Z.min (len (splitlines text)) (Z.of_nat k * step + c)))).
    apply elem_of_seq. split; [lia|]. simpl.
    apply count_bound; [done|]. nia.
  - simpl. rewrite Z2Nat.id by done. nia.
Qed.

Lemma windows_cover_every_line_witness :
  0 < 2 /\ 0 <= 1 /\ 0 <= 3 < len (splitlines sample_text)
  /\ exists w : Z * Z, w ∈ chunk_windows sample_text 2 1 /\ w.1 <= 3 < w.2.
Proof.
  assert (H : 0 <= 3 < len (splitlines sample_text))
    by (vm_compute; split; discriminate || reflexivity).
  split; [lia|]. split; [lia|]. split; [exact H|].
  exact (windows_cover_every_line sample_text 2 1 3 ltac:(lia) ltac:(lia) H).
Defined.

(** A negative overlap does leave lines out: with one line per chunk and
    overlap -1 the second of three lines is in no window. *)
Lemma negative_overlap_skips_lines :
  chunk_windows (py "a" ++ NL ++ py "b" ++ NL ++ py "c") 1 (-1)
  = [(0, 1); (2, 3)].
Proof. vm_compute. reflexivity. Qed.

(** With [0 <= chunk_overlap < chunk_lines], each window starts
    [chunk_lines - chunk_overlap] lines after the one before and never
    beyond its end: the two share [min(chunk_overlap, L - start)] lines,
    where [start] is the start of the later one. *)
Theorem consecutive_windows_overlap (text : pystr) (c o : Z) (k : nat)
  (w w' : Z * Z) :
  0 <= o < c ->
  chunk_windows text c o !! k = Some w ->
  chunk_windows text c o !! S k = Some w' ->
  w'.1 = w.1 + (c - o)
  /\ w.1 < w'.1 <= w.2
  /\ w.2 - w'.1 = Z.min o (len (splitlines text) - w'.1).
Proof.
  intros Ho Hk Hk'.
  rewrite chunk_windows_spec in Hk, Hk'. cbv zeta in Hk, Hk'.
  rewrite list_lookup_fmap in Hk, Hk'.
  destruct (seq 0 _ !! k) as [j|] eqn:Hj; [|done].
  destruct (seq 0 _ !! S k) as [j'|] eqn:Hj'; [|done].
  apply lookup_seq in Hj as [-> _]. apply lookup_seq in Hj' as [-> Hlt].
  apply count_bound in Hlt; [|lia].
  inversion Hk; inversion Hk'; subst; simpl in *.
  replace (Z.max 1 (c - o)) with (c - o) in * by lia. lia.
Qed.

Lemma consecutive_windows_overlap_witness :
  0 <= 10 < 40
  /\ chunk_windows hundred_lines 40 10 !! 1%nat = Some (30, 70)
  /\ chunk_windows hundred_lines 40 10 !! 2%nat = Some (60, 100)
  /\ 70 - 60 = Z.min 10 (len (splitlines hundred_lines) - 60).
Proof.
  assert (H1 : chunk_windows hundred_lines 40 10 !! 1%nat = Some (30, 70))
    by (vm_compute; reflexivity).
  assert (H2 : chunk_windows hundred_lines 40 10 !! 2%nat = Some (60, 100))
    by (vm_compute; reflexivity).
  split; [lia|]. split; [exact H1|]. split; [exact H2|].
  exact (proj2 (proj2 (consecutive_windows_overlap hundred_lines 40 10 1
                         (30, 70) (60, 100) ltac:(lia) H1 H2))).
Defined.

(** The text of a yielded chunk is not empty and neither begins nor ends
    with a whitespace character. *)
Theorem chunk_text_trimmed (text : pystr) (c o : Z) :
  Forall (fun t : pystr * Z * Z =>
            t.1.1 <> []
            /\ (forall ch, head t.1.1 = Some ch -> is_space ch = false)
            /\ (forall ch, last t.1.1 = Some ch -> is_space ch = false))
    (chunk_text text c o).
Proof.
  apply Forall_forall. intros t Ht.
  apply chunk_text_elem in Ht as (w & _ & Hne & ->). simpl.
  split; [done|]. apply strip_ends.
Qed.

(** [chunk_text] does not check [chunk_lines]: with [chunk_lines = 0]
    nothing is yielded, and with a negative [chunk_lines] whatever is
    yielded carries a negative [end_line] (the slice bound counted from
    the end of the file). *)
Theorem chunk_text_nonpositive_lines (text : pystr) (c o : Z) :
  c <= 0 ->
  Forall (fun t : pystr * Z * Z => t.2 < 0) (chunk_text text c o)
  /\ (c = 0 -> chunk_text text c o = []).
Proof.
  intros Hc.
  assert (Hall : Forall (fun t : pystr * Z * Z => t.2 < 0)
                   (chunk_text text c o)).
  { apply Forall_forall. intros t Ht.
    apply chunk_text_elem in Ht as (w & Hw & Hne & ->). simpl.
    apply chunk_windows_elem in Hw as (k & -> & Hlt). simpl in *.
    destruct (Z.lt_ge_cases (Z.of_nat k * Z.max 1 (c - o) + c) 0) as [|Hge];
      [lia|].
    exfalso. apply Hne. unfold window_text, slice, slice_index.
    assert (0 <= Z.of_nat k * Z.max 1 (c - o)) by nia.
    rewrite Z.min_r by lia.
    destruct (Z.ltb_spec (Z.of_nat k * Z.max 1 (c - o)) 0); [lia|].
    destruct (Z.ltb_spec (Z.of_nat k * Z.max 1 (c - o) + c) 0); [lia|].
    rewrite !Z.min_l by lia.
    replace (Z.to_nat _) with 0%nat by lia. done. }
  split; [exact Hall|]. intros ->.
  destruct (chunk_text text 0 o) as [|t ts] eqn:Hy; [done|].
  apply Forall_cons_iff in Hall as [Ht _].
  assert (Hin : t ∈ chunk_text text 0 o) by (rewrite Hy; left).
  apply chunk_text_elem in Hin as (w & Hw & _ & ->). simpl in Ht.
  apply chunk_windows_elem in Hw as (k & -> & Hlt). simpl in *. nia.
Qed.

Lemma chunk_text_nonpositive_lines_witness :
  -1 <= 0
  /\ chunk_text (py "a" ++ NL ++ py "b" ++ NL ++ py "c") (-1) 0
     = [(py "a" ++ NL ++ py "b", 1, -1)]
  /\ Forall (fun t : pystr * Z * Z => t.2 < 0)
       (chunk_text (py "a" ++ NL ++ py "b" ++ NL ++ py "c") (-1) 0).
Proof.
  split; [lia|]. split; [vm_compute; reflexivity|].
  exact (proj1 (chunk_text_nonpositive_lines
                  (py "a" ++ NL ++ py "b" ++ NL ++ py "c") (-1) 0
                  ltac:(lia))).
Defined.

(** [chunk_text] never yields more chunks than the text has lines,
    whatever the parameters. *)
Theorem chunk_text_at_most_one_per_line (text : pystr) (c o : Z) :
  (length (chunk_text text c o) <= length (splitlines text))%nat.
Proof.
  rewrite chunk_text_omap.
  transitivity (length (chunk_windows text c o)).
  - generalize (chunk_windows text c o). intros ws.
    induction ws as [|w ws IH]; [done|]. cbn [omap list_omap].
    destruct (body_yield _ w); simpl; lia.
  - rewrite chunk_windows_spec. cbv zeta. rewrite length_fmap, length_seq.
    pose proof (cdiv_bounds (len (splitlines text)) (Z.max 1 (c - o))
                  ltac:(lia)).
    unfold len in *. nia.
Qed.

(** A file that fits in one step (at most [chunk_lines - chunk_overlap]
    lines, the overlap not negative) gives one chunk, covering lines 1 to
    [L], whose text is the whole text with its lines joined by ["\n"] and
    stripped; or nothing when that text is blank. *)
Theorem one_chunk_for_a_short_file (text : pystr) (c o : Z) :
  0 <= o ->
  0 < len (splitlines text) <= c - o ->
  chunk_windows text c o = [(0, len (splitlines text))]
  /\ chunk_text text c o
     = match strip (join NL (splitlines text)) with
       | [] => []
       | chunk => [(chunk, 1, len (splitlines text))]
       end.
Proof.
  intros Ho HL.
  assert (Hw : chunk_windows text c o = [(0, len (splitlines text))]).
  { rewrite chunk_windows_spec. cbv zeta.
    replace (Z.to_nat _) with 1%nat.
    - simpl. f_equal. f_equal. lia.
    - pose proof (cdiv_bounds (len (splitlines text)) (Z.max 1 (c - o))
                    ltac:(lia)). nia. }
  split; [exact Hw|].
  rewrite chunk_text_omap, Hw. cbn [omap list_omap]. unfold body_yield.
  cbn [fst snd]. unfold window_text.
  destruct (slice_inside (splitlines text) 0 (len (splitlines text)))
    as [Hs _]; [lia..|].
  rewrite Hs. unfold len. rewrite Z.sub_0_r, Nat2Z.id. simpl drop.
  rewrite firstn_all. by destruct (strip _).
Qed.

Lemma one_chunk_for_a_short_file_witness :
  0 <= 10 /\ 0 < len (splitlines sample_text) <= 40 - 10
  /\ chunk_text sample_text 40 10
     = [(py "a" ++ NL ++ py "b" ++ NL ++ NL ++ py " " ++ NL ++ py "c", 1, 5)].
Proof.
  assert (H : 0 < len (splitlines sample_text) <= 40 - 10)
    by (vm_compute; split; discriminate || reflexivity).
  split; [lia|]. split; [exact H|].
  rewrite (proj2 (one_chunk_for_a_short_file sample_text 40 10 ltac:(lia) H)).
  vm_compute. reflexivity.
Defined.

End ChunkerMore.

(** ** More on batching *)

Module BatchingMore.
Import Chunker Batching ChunkerFacts.

Section batched.
Context {A : Type}.
Implicit Types (batch items : list A) (size : Z).

(** The number of batches still to come, from any state of the loop. *)
Lemma batched_loop_length size batch items :
  0 < size -> len batch < size ->
  Z.of_nat (length (batched_loop size batch items))
  = cdiv (len batch + len items) size.
Proof.
  intros Hsize. revert batch.
  induction items as [|item rest IH]; intros batch Hbatch; simpl.
  - destruct batch as [|x batch]; simpl.
    + unfold cdiv, len. simpl. rewrite Z.div_small; lia.
    + pose proof (cdiv_bounds (len (x :: batch) + len (@nil A)) size Hsize).
      unfold len in *. simpl in *. nia.
  - assert (Hlen : len (batch ++ [item]) = len batch + 1).
    { unfold len. rewrite length_app. simpl. lia. }
    assert (Hcons : len (item :: rest) = len rest + 1).
    { unfold len. simpl. lia. }
    destruct (Z.geb_spec (len (batch ++ [item])) size) as [Hfull|Hshort].
    + simpl. rewrite Nat2Z.inj_succ, (IH []) by (unfold len; simpl; lia).
      rewrite (cdiv_step (len batch + len (item :: rest)) size) by lia.
      replace (len batch + len (item :: rest) - size)
        with (len (@nil A) + len rest) by (unfold len in *; simpl in *; lia).
      lia.
    + rewrite IH by lia. f_equal. lia.
Qed.
End batched.

(** For a positive batch size [B], [batched] yields [ceil(n / B)]
    batches for [n] items. *)
Theorem batched_count {A : Type} (items : list A) (B : Z) :
  0 < B ->
  Z.of_nat (length (batched items B)) = cdiv (len items) B
  /\ (cdiv (len items) B - 1) * B < len items <= cdiv (len items) B * B.
Proof.
  intros HB. split; [|by apply cdiv_bounds].
  unfold batched. rewrite batched_loop_length; [done|done|].
  unfold len. simpl. lia.
Qed.

Lemma batched_count_witness :
  0 < 2 /\ Z.of_nat (length (batched [1; 2; 3; 4; 5]%nat 2)) = 3.
Proof.
  split; [lia|].
  rewrite (proj1 (batched_count [1; 2; 3; 4; 5]%nat 2 ltac:(lia))).
  reflexivity.
Defined.

(** [batched] does not check its size: with a size of 1, 0 or a negative
    number every item is yielded as a batch of its own. *)
Theorem batched_size_at_most_one {A : Type} (items : list A) (size : Z) :
  size <= 1 ->
  batched items size = (fun item => [item]) <$> items.
Proof.
  intros Hsize. unfold batched.
  induction items as [|item rest IH]; [done|]. simpl.
  destruct (Z.geb_spec (len [item]) size) as [_|Hlt].
  - by rewrite IH.
  - unfold len in Hlt. simpl in Hlt. lia.
Qed.

Lemma batched_size_at_most_one_witness :
  0 <= 1 /\ batched [7; 8; 9]%nat 0 = [[7]; [8]; [9]]%nat.
Proof.
  split; [lia|].
  exact (batched_size_at_most_one [7; 8; 9]%nat 0 ltac:(lia)).
Defined.

End BatchingMore.

(** ** More on the file selector *)

Module FileSelectorMore.
Import FileSelectorSpec Samples.

Section selector.
Variable lower : pystr -> pystr.

(** After paths that the loop all comes to, the generator goes on with
    the rest of the walk. *)
Lemma iter_code_files_app (before after : list Path) extensions
  include_hidden max_file_mb :
  reached before = before ->
  iter_code_files lower (before ++ after) extensions include_hidden max_file_mb
  = {| yielded :=
         yielded (iter_code_files lower before extensions include_hidden
                    max_file_mb)
         ++ yielded (iter_code_files lower after extensions include_hidden
                       max_file_mb);
       raised :=
         raised (iter_code_files lower after extensions include_hidden
                   max_file_mb) |}.
Proof.
  induction before as [|p before IH]; simpl.
  - intros _. by destruct (iter_code_files lower after _ _ _).
  - destruct (is_file p) as [exc|regular]; [done|]. intros [= Hrest].
    rewrite (IH Hrest). destruct (negb regular); [done|].
    destruct (_ && _); [done|]. destruct (_ && _); [done|].
    destruct (stat_size p); [done|]. by destruct (int_gt _ _).
Qed.

(** A path the loop comes to and that passes every test is yielded. *)
Lemma iter_code_files_complete tree extensions include_hidden max_file_mb
  path :
  path ∈ reached tree ->
  selected lower extensions include_hidden max_file_mb path ->
  path ∈ yielded (iter_code_files lower tree extensions include_hidden
                    max_file_mb).
Proof.
  intros Hin (Hfile & Hhid & Hext & size & Hstat & Hgt).
  induction tree as [|p tree IH]; simpl in Hin |- *;
    [by apply elem_of_nil in Hin|].
  destruct (is_file p) as [exc|regular] eqn:Hp; [by apply elem_of_nil in Hin|].
  apply elem_of_cons in Hin as [<-|Hin].
  - rewrite Hfile in Hp. injection Hp as <-. simpl.
    assert (negb include_hidden
            && existsb starts_with_dot (relative_parts path) = false) as ->.
    { destruct include_hidden; [done|]. simpl.
      specialize (Hhid eq_refl).
      destruct (existsb _ _) eqn:Hex; [|done].
      apply existsb_exists in Hex as (part & Hpart & Hdot).
      rewrite Forall_forall in Hhid. apply list_elem_of_In in Hpart.
      rewrite (Hhid part Hpart) in Hdot. done. }
    assert (match extensions with [] => false | _ :: _ => true end
            && negb (bool_decide (lower (suffix path) ∈ extensions)) = false)
      as ->.
    { destruct extensions as [|x xs]; [done|]. simpl.
      rewrite bool_decide_eq_true_2; [done|]. by apply Hext. }
    rewrite Hstat, Hgt. simpl. left.
  - specialize (IH Hin). clear Hfile Hhid Hext Hstat Hgt.
    destruct (negb regular); [done|].
    destruct (_ && _); [done|]. destruct (_ && _); [done|].
    destruct (stat_size p); [done|].
    destruct (int_gt _ _); [done|]. simpl. by right.
Qed.

Lemma iter_code_files_sublist tree extensions include_hidden max_file_mb :
  yielded (iter_code_files lower tree extensions include_hidden max_file_mb)
    `sublist_of` reached tree.
Proof.
  induction tree as [|p tree IH]; simpl; [done|].
  destruct (is_file p) as [exc|regular]; [done|].
  destruct (negb regular); [by apply sublist_cons|].
  destruct (_ && _); [by apply sublist_cons|].
  destruct (_ && _); [by apply sublist_cons|].
  destruct (stat_size p); [by apply sublist_cons|].
  destruct (int_gt _ _); [by apply sublist_cons|by apply sublist_skip].
Qed.

(** The generator raises exactly the exception of the first
    [is_file()] that raises. *)
Lemma iter_code_files_raised tree extensions include_hidden max_file_mb
  (exc : OSError) :
  raised (iter_code_files lower tree extensions include_hidden max_file_mb)
  = Some exc
  <-> exists (bad : Path) (after : list Path),
        tree = reached tree ++ bad :: after /\ is_file bad = inl exc.
Proof.
  induction tree as [|p tree IH]; simpl.
  - split; [done|]. by intros (bad & after & Heq & _).
  - destruct (is_file p) as [exc'|regular] eqn:Hp; simpl.
    + split.
      * intros [= ->]. by exists p, tree.
      * intros (bad & after & [= <- _] & Hbad). congruence.
    + assert (Hsame :
        raised (if negb regular
                then iter_code_files lower tree extensions include_hidden
                       max_file_mb
                else if negb include_hidden
                        && existsb starts_with_dot (relative_parts p)
                then iter_code_files lower tree extensions include_hidden
                       max_file_mb
                else if match extensions with
                        | [] => false
                        | _ :: _ => true
                        end
                        && negb (bool_decide (lower (suffix p) ∈ extensions))
                then iter_code_files lower tree extensions include_hidden
                       max_file_mb
                else match stat_size p with
                     | inl _ =>
                         iter_code_files lower tree extensions include_hidden
                           max_file_mb
                     | inr st_size =>
                         if int_gt st_size
                              (scale (scale max_file_mb 1024) 1024)
                         then iter_code_files lower tree extensions
                                include_hidden max_file_mb
                         else yield p
                                (iter_code_files lower tree extensions
                                   include_hidden max_file_mb)
                     end)
        = raised (iter_code_files lower tree extensions include_hidden
                    max_file_mb)).
      { destruct (negb regular); [done|].
        destruct (_ && _); [done|]. destruct (_ && _); [done|].
        destruct (stat_size p); [done|]. by destruct (int_gt _ _). }
      rewrite Hsame, IH. split.
      * intros (bad & after & Heq & Hbad). exists bad, after.
        split; [by rewrite Heq at 1|done].
      * intros (bad & after & [= Heq] & Hbad). by exists bad, after.
Qed.
End selector.

(** [iter_code_files] yields exactly the paths that the loop comes to
    (those before the first path whose [is_file()] raises) and that are
    regular files, are not hidden (unless hidden files are included),
    have an allowed suffix (when there is an allow-list) and a readable
    size not above the limit; it yields them in the order of the walk,
    without repeating or reordering any.  It ends by raising exactly
    when an [is_file()] raises, with that exception; when every
    [is_file()] answers, the loop comes to every path of the walk. *)
Theorem iter_code_files_exact (lower : pystr -> pystr) (tree : list Path)
  (extensions : list pystr) (include_hidden : bool) (max_file_mb : pyfloat) :
  let run :=
    iter_code_files lower tree extensions include_hidden max_file_mb in
  (forall path : Path,
     path ∈ yielded run
     <-> path ∈ reached tree
         /\ is_file path = inr true
         /\ (include_hidden = false ->
             Forall (fun part => starts_with_dot part = false)
               (relative_parts path))
         /\ (extensions <> [] -> lower (suffix path) ∈ extensions)
         /\ exists size : Z,
              stat_size path = inr size
              /\ int_gt size (scale (scale max_file_mb 1024) 1024) = false)
  /\ yielded run `sublist_of` reached tree
  /\ reached tree `prefix_of` tree
  /\ (forall exc : OSError,
        raised run = Some exc
        <-> exists (bad : Path) (after : list Path),
              tree = reached tree ++ bad :: after /\ is_file bad = inl exc)
  /\ (Forall (fun p : Path => exists regular, is_file p = inr regular) tree ->
      reached tree = tree /\ raised run = None).
Proof.
  intros run. subst run.
  split; [|split; [|split; [|split]]].
  - intros path. split.
    + apply iter_code_files_elem.
    + intros [Hin Hsel]. by apply iter_code_files_complete.
  - apply iter_code_files_sublist.
  - apply reached_prefix.
  - intros exc. apply iter_code_files_raised.
  - intros Hall. pose proof (reached_all tree Hall) as Hreach.
    split; [done|].
    destruct (raised _) as [exc|] eqn:Hr; [|done]. exfalso.
    apply iter_code_files_raised in Hr as (bad & after & Heq & Hbad).
    rewrite Hreach in Heq.
    assert (length tree = length (tree ++ bad :: after)) as Hlen
      by (by rewrite <- Heq).
    rewrite length_app in Hlen. simpl in Hlen. lia.
Qed.

Lemma iter_code_files_exact_witness :
  upper_file ∈
    yielded (iter_code_files ascii_lower
               [directory; hidden_file; upper_file; denied_file; abc_file]
               [py ".py"; py ".md"] false (Finite 2))
  /\ raised (iter_code_files ascii_lower
               [directory; hidden_file; upper_file; denied_file; abc_file]
               [py ".py"; py ".md"] false (Finite 2))
     = Some (os_error (py "[Errno 13] Permission denied")).
Proof.
  destruct (iter_code_files_exact ascii_lower
              [directory; hidden_file; upper_file; denied_file; abc_file]
              [py ".py"; py ".md"] false (Finite 2))
    as (Hyield & _ & _ & Hraise & _).
  split.
  - apply Hyield.
    split; [do 2 right; left|]. split; [reflexivity|].
    split; [intros _; by repeat constructor|].
    split; [intros _; vm_compute; right; left|].
    exists 7. split; [reflexivity|]. vm_compute. reflexivity.
  - apply Hraise. exists denied_file, [abc_file]. by split.
Defined.

(** The size limit at the edges of the floats: with [max_file_mb] NaN
    or [+inf] no file is rejected for its size (a file the loop comes
    to, that passes the other tests and whose size can be read is
    yielded, however large); with a negative [max_file_mb] every file
    is rejected, sizes being non-negative. *)
Theorem size_limit_edge_values (lower : pystr -> pystr) (tree : list Path)
  (extensions : list pystr) (include_hidden : bool) (max_file_mb : pyfloat) :
  (max_file_mb = NaN \/ max_file_mb = PosInf ->
   forall (path : Path) (size : Z),
     path ∈ reached tree -> is_file path = inr true ->
     (include_hidden = false ->
      Forall (fun part => starts_with_dot part = false) (relative_parts path)) ->
     (extensions <> [] -> lower (suffix path) ∈ extensions) ->
     stat_size path = inr size ->
     path ∈ yielded (iter_code_files lower tree extensions include_hidden
                       max_file_mb))
  /\ ((max_file_mb = NegInf
       \/ exists q : Q, max_file_mb = Finite q /\ (q < 0)%Q) ->
      Forall (fun path : Path =>
                forall size : Z, stat_size path = inr size -> 0 <= size) tree ->
      yielded (iter_code_files lower tree extensions include_hidden
                 max_file_mb) = []).
Proof.
  split.
  - intros Hmb path size Hin Hfile Hhid Hext Hstat.
    apply iter_code_files_complete; [done|].
    split; [done|]. split; [done|]. split; [done|].
    exists size. split; [done|]. by destruct Hmb as [-> | ->].
  - intros Hneg Hsizes.
    assert (Hgt : forall size : Z, 0 <= size ->
              int_gt size (scale (scale max_file_mb 1024) 1024) = true).
    { intros size Hsize.
      assert (Hq : (0 <= inject_Z size)%Q).
      { change 0%Q with (inject_Z 0). by rewrite <- Zle_Qle. }
      pose proof overflow_threshold_pos as Hpos.
      destruct Hneg as [-> | (q & -> & Hq0)]; [reflexivity|].
      assert (H1024 : (inject_Z 1024 == 1024)%Q) by reflexivity.
      unfold scale at 2.
      destruct (Qle_bool overflow_threshold (q * inject_Z 1024)) eqn:H1.
      { apply Qle_bool_iff in H1. rewrite H1024 in H1. lra. }
      destruct (Qle_bool (q * inject_Z 1024) (- overflow_threshold));
        [reflexivity|].
      unfold scale.
      destruct (Qle_bool overflow_threshold
                  (q * inject_Z 1024 * inject_Z 1024)) eqn:H3.
      { apply Qle_bool_iff in H3. rewrite H1024 in H3. lra. }
      destruct (Qle_bool (q * inject_Z 1024 * inject_Z 1024)
                  (- overflow_threshold)); [reflexivity|].
      simpl. apply negb_true_iff.
      destruct (Qle_bool (inject_Z size) (q * inject_Z 1024 * inject_Z 1024))
        eqn:H5; [|done].
      apply Qle_bool_iff in H5. rewrite H1024 in H5. lra. }
    induction Hsizes as [|p tree Hp _ IH]; [done|]. simpl.
    destruct (is_file p) as [exc|regular]; [done|].
    destruct (negb regular); [done|].
    destruct (_ && _); [done|]. destruct (_ && _); [done|].
    destruct (stat_size p) as [e|size] eqn:Hstat; [done|].
    by rewrite Hgt by (by apply Hp).
Qed.

Lemma size_limit_edge_values_witness :
  yielded (iter_code_files ascii_lower [upper_file; abc_file] [] true
             (Finite (-1))) = []
  /\ abc_file ∈ yielded (iter_code_files ascii_lower [upper_file; abc_file] []
                           true NaN).
Proof.
  destruct (size_limit_edge_values ascii_lower [upper_file; abc_file] [] true
              (Finite (-1))) as [_ Hneg].
  destruct (size_limit_edge_values ascii_lower [upper_file; abc_file] [] true
              NaN) as [Hnan _].
  split.
  - apply Hneg.
    + right. exists (-1)%Q. split; [reflexivity|reflexivity].
    + repeat constructor; intros size [= <-]; vm_compute; discriminate.
  - apply (Hnan ltac:(by left) abc_file 5); try done.
    right; left.
Defined.

End FileSelectorMore.

(** ** Decimal strings *)

Module DecimalFacts.

Lemma py_inj (s s' : string) : py s = py s' -> s = s'.
Proof.
  unfold py. intros H.
  rewrite <- (string_of_list_ascii_of_string s).
  rewrite <- (string_of_list_ascii_of_string s'). f_equal.
  revert H. generalize (list_ascii_of_string s) (list_ascii_of_string s').
  intros l. induction l as [|a l IH]; intros [|a' l'] H; try done.
  rewrite !fmap_cons in H. inversion H as [[Ha Hl]]. f_equal; [|by apply IH].
  rewrite <- (ascii_N_embedding a), <- (ascii_N_embedding a'). by rewrite Ha.
Qed.

(** [str] of an integer determines the integer. *)
Lemma str_of_Z_inj (z z' : Z) : str_of_Z z = str_of_Z z' -> z = z'.
Proof.
  unfold str_of_Z. intros H%py_inj. apply DecimalZ.to_int_inj.
  assert (Hnn : forall x : Z,
            Z.to_int x <> Decimal.Pos Decimal.Nil
            /\ Z.to_int x <> Decimal.Neg Decimal.Nil).
  { intros [|p|p]; simpl; split; try discriminate;
      intros [= Hp]; by apply DecimalPos.Unsigned.to_uint_nonnil in Hp. }
  assert (Some (Z.to_int z) = Some (Z.to_int z')) as [= ->]; [|done].
  rewrite <- (NilZero.isi (Z.to_int z)) by apply Hnn.
  rewrite <- (NilZero.isi (Z.to_int z')) by apply Hnn.
  by rewrite H.
Qed.

Lemma digits_of_uint (d : Decimal.uint) :
  Forall (fun c => (48 <= c <= 57)%N) (py (NilEmpty.string_of_uint d)).
Proof.
  induction d; simpl; try constructor; try done;
    vm_compute; split; discriminate.
Qed.

(** [str] of a natural number consists of digits. *)
Lemma str_of_nat_digits (n : nat) :
  Forall (fun c => (48 <= c <= 57)%N) (str_of_Z (Z.of_nat n)).
Proof.
  unfold str_of_Z.
  assert (H : exists d, Z.to_int (Z.of_nat n) = Decimal.Pos d).
  { destruct (Z.of_nat n) eqn:Hn; simpl; eauto. lia. }
  destruct H as [d ->]. simpl. unfold NilZero.string_of_uint.
  destruct d; try apply (digits_of_uint (_ _)).
  repeat constructor; vm_compute; discriminate.
Qed.

(** Cutting two lists at the first occurrence of a character. *)
Lemma cut_at_first {A} (c : A) (l1 l2 t1 t2 : list A) :
  l1 ++ c :: t1 = l2 ++ c :: t2 -> c ∉ l1 -> c ∉ l2 ->
  l1 = l2 /\ t1 = t2.
Proof.
  revert l2. induction l1 as [|x l1 IH]; intros [|y l2] H H1 H2; simpl in *.
  - by inversion H.
  - inversion H; subst. exfalso. apply H2. left.
  - inversion H; subst. exfalso. apply H1. left.
  - inversion H; subst.
    destruct (IH l2) as [-> ->]; [done| | |done].
    + intros Hc. apply H1. by right.
    + intros Hc. apply H2. by right.
Qed.

End DecimalFacts.

(** ** More on the chunk assembler *)

Module AssemblerMore.
Import Chunker Assembler Samples ChunkerSpec AssemblerSpec FileSelectorMore.
Import DecimalFacts ChunkerMore.

(** An id determines the relative path and the index it was made of,
    whatever characters the path contains. *)
Lemma make_doc_id_inj (relative relative' : pystr) (idx idx' : nat) :
  make_doc_id relative idx = make_doc_id relative' idx' ->
  relative = relative' /\ idx = idx'.
Proof.
  unfold make_doc_id. intros H.
  apply (f_equal reverse) in H.
  change (py "::") with [58%N; 58%N] in H.
  rewrite !reverse_app in H. simpl in H.
  change (reverse [58%N; 58%N]) with [58%N; 58%N] in H.
  rewrite <- !app_assoc in H. simpl in H.
  assert (Hnc : forall n : nat, 58%N ∉ reverse (str_of_Z (Z.of_nat n))).
  { intros n Hin. rewrite elem_of_reverse in Hin.
    pose proof (str_of_nat_digits n) as Hd. rewrite Forall_forall in Hd.
    apply Hd in Hin. lia. }
  apply cut_at_first in H as [Hd Hr]; [|apply Hnc..].
  apply (inj reverse) in Hd. apply str_of_Z_inj in Hd.
  inversion Hr as [Hr']. apply (inj reverse) in Hr'. split; [done|lia].
Qed.

Section assembler.
Variable lower : pystr -> pystr.

Lemma chunks_of_path_elem source_dir c o collection path (ch : Chunk) :
  ch ∈ chunks_of_path source_dir c o collection path ->
  exists (text : pystr) (idx : nat) (t : pystr * Z * Z),
    read_text path = inr text
    /\ chunk_text text c o !! idx = Some t
    /\ ch = {| doc_id := make_doc_id (as_posix (relative_parts path)) idx;
               document := t.1.1;
               metadata :=
                 <[py "path" := as_posix (relative_parts path)]>
                 (<[py "start_line" := str_of_Z t.1.2]>
                 (<[py "end_line" := str_of_Z t.2]>
                 (<[py "source_dir" := source_dir]>
                 (<[py "collection" := collection]> ∅)))) |}.
Proof.
  unfold chunks_of_path.
  destruct (read_text path) as [e|text]; [by intros ?%elem_of_nil|].
  intros Hin. apply list_elem_of_lookup in Hin as [idx Hidx].
  rewrite list_lookup_imap in Hidx.
  destruct (chunk_text text c o !! idx) as [[[chunk s] e]|] eqn:Ht; [|done].
  simpl in Hidx. inversion Hidx. exists text, idx, (chunk, s, e). done.
Qed.

(** One more path at the head of the walk. *)
Lemma discover_chunks_cons (p : Path) (tree : list Path) source_dir exts
  hidden mb c o collection :
  discover_chunks lower (p :: tree) source_dir exts hidden mb c o collection
  = match is_file p with
    | inl exc => Gen [] (Some exc)
    | inr _ =>
        {| yielded :=
             yielded (discover_chunks lower [p] source_dir exts hidden mb c
                        o collection)
             ++ yielded (discover_chunks lower tree source_dir exts hidden
                           mb c o collection);
           raised :=
             raised (discover_chunks lower tree source_dir exts hidden mb c
                       o collection) |}
    end.
Proof.
  unfold discover_chunks. cbn [iter_code_files].
  destruct (is_file p) as [exc|regular]; [done|].
  destruct (negb regular); [done|].
  destruct (_ && _); [done|]. destruct (_ && _); [done|].
  destruct (stat_size p); [done|]. destruct (int_gt _ _); [done|].
  cbn [yield yielded raised]. by rewrite bind_cons, bind_singleton.
Qed.

Lemma discover_stderr_cons (p : Path) (tree : list Path) exts hidden mb :
  discover_stderr lower (p :: tree) exts hidden mb
  = match is_file p with
    | inl _ => []
    | inr _ =>
        discover_stderr lower [p] exts hidden mb
        ++ discover_stderr lower tree exts hidden mb
    end.
Proof.
  unfold discover_stderr. cbn [iter_code_files].
  destruct (is_file p) as [exc|regular]; [done|].
  destruct (negb regular); [done|].
  destruct (_ && _); [done|]. destruct (_ && _); [done|].
  destruct (stat_size p); [done|]. destruct (int_gt _ _); [done|].
  cbn [yield yielded raised]. by rewrite bind_cons, bind_singleton.
Qed.

Lemma discover_stderr_app (before after : list Path) exts hidden mb :
  reached before = before ->
  discover_stderr lower (before ++ after) exts hidden mb
  = discover_stderr lower before exts hidden mb
    ++ discover_stderr lower after exts hidden mb.
Proof.
  induction before as [|p before IH]; [done|]. simpl.
  rewrite (discover_stderr_cons p (before ++ after)).
  rewrite (discover_stderr_cons p before).
  destruct (is_file p) as [exc|regular]; [done|]. intros [= Hrest].
  by rewrite (IH Hrest), <- app_assoc.
Qed.
End assembler.

(** A file that cannot be read is skipped and the run goes on: the
    generator yields the chunks of the other files, unchanged and in
    the same order, and ends as it does without the file; and when the
    file had passed the selection and the loop comes to it, one line
    naming the file and the error is printed on stderr, between the
    lines of the files before and after it. *)
Theorem unreadable_file_is_skipped (lower : pystr -> pystr)
  (before after : list Path) (bad : Path) (regular : bool)
  (msg source_dir : pystr) (exts : list pystr) (hidden : bool)
  (mb : pyfloat) (c o : Z) (collection : pystr) :
  is_file bad = inr regular ->
  read_text bad = inl (os_error msg) ->
  discover_chunks lower (before ++ bad :: after) source_dir exts hidden mb
    c o collection
  = discover_chunks lower (before ++ after) source_dir exts hidden mb c o
      collection
  /\ (yielded (iter_code_files lower [bad] exts hidden mb) = [bad] ->
      reached before = before ->
      discover_stderr lower (before ++ bad :: after) exts hidden mb
      = discover_stderr lower before exts hidden mb
        ++ [py "Skipping " ++ path_str bad ++ py ": " ++ msg]
        ++ discover_stderr lower after exts hidden mb).
Proof.
  intros Hfile Hread. split.
  - induction before as [|p before IH]; simpl.
    + rewrite (discover_chunks_cons lower bad after), Hfile.
      assert (yielded (discover_chunks lower [bad] source_dir exts hidden mb
                         c o collection) = []) as ->.
      { unfold discover_chunks. cbn [iter_code_files]. rewrite Hfile.
        destruct (negb regular); [done|].
        destruct (_ && _); [done|]. destruct (_ && _); [done|].
        destruct (stat_size bad); [done|]. destruct (int_gt _ _); [done|].
        cbn [yield yielded]. rewrite bind_singleton.
        unfold chunks_of_path. by rewrite Hread. }
      done.
    + rewrite (discover_chunks_cons lower p (before ++ bad :: after)).
      rewrite (discover_chunks_cons lower p (before ++ after)).
      by rewrite IH.
  - intros Hsel Hreach. change (bad :: after) with ([bad] ++ after).
    rewrite (discover_stderr_app lower before) by done. f_equal.
    rewrite (discover_stderr_app lower [bad]) by (simpl; by rewrite Hfile).
    f_equal. unfold discover_stderr. rewrite Hsel, bind_singleton.
    by rewrite Hread.
Qed.

Lemma unreadable_file_is_skipped_witness :
  yielded (iter_code_files ascii_lower [unreadable_file] [py ".py"] false
             (Finite 2)) = [unreadable_file]
  /\ doc_id <$> yielded (discover_chunks ascii_lower
                           [abc_file; unreadable_file; upper_file]
                           (py "/repo") [] false (Finite 2) 2 0
                           (py "code-rag"))
     = [py "g.py::0"; py "g.py::1"; py "README.MD::0"]
  /\ discover_stderr ascii_lower [abc_file; unreadable_file; upper_file] []
       false (Finite 2)
     = [py "Skipping /repo/secret.py: [Errno 13] Permission denied"].
Proof.
  destruct (unreadable_file_is_skipped ascii_lower [abc_file] [upper_file]
              unreadable_file true (py "[Errno 13] Permission denied")
              (py "/repo") [] false (Finite 2) 2 0 (py "code-rag")
              eq_refl eq_refl) as [Hchunks Hstderr].
  split; [vm_compute; reflexivity|]. split.
  - cbn [app] in Hchunks. rewrite Hchunks. vm_compute. reflexivity.
  - cbn [app] in Hstderr. rewrite Hstderr; [|vm_compute; reflexivity|done].
    vm_compute. reflexivity.
Defined.

(** When the selected files have pairwise different relative paths, no
    two chunks of a run share an id. *)
Theorem doc_ids_unique_in_run (lower : pystr -> pystr)
  (tree : list Path) (source_dir : pystr) (exts : list pystr) (hidden : bool)
  (mb : pyfloat) (c o : Z) (collection : pystr) :
  NoDup ((fun p : Path => as_posix (relative_parts p))
           <$> yielded (iter_code_files lower tree exts hidden mb)) ->
  NoDup (doc_id <$> yielded (discover_chunks lower tree source_dir exts hidden
                               mb c o collection)).
Proof.
  unfold discover_chunks. cbn [yielded].
  induction (yielded (iter_code_files lower tree exts hidden mb)) as [|p ps IH];
    intros Hnd; [constructor|].
  rewrite fmap_cons in Hnd. apply NoDup_cons in Hnd as [Hp Hps].
  rewrite bind_cons, fmap_app. apply NoDup_app. split; [|split].
  - destruct (read_text p) as [e|text] eqn:Hread.
    + unfold chunks_of_path. rewrite Hread. constructor.
    + rewrite (chunks_of_path_ids _ _ _ _ _ text) by done.
      apply NoDup_fmap_2_strong; [|apply NoDup_seq].
      intros n n' _ _ Heq. by apply make_doc_id_inj in Heq as [_ ->].
  - intros id Hid Hid'.
    apply list_elem_of_fmap in Hid as (ch & -> & Hch).
    apply chunks_of_path_elem in Hch as (text & idx & t & _ & _ & ->).
    apply list_elem_of_fmap in Hid' as (ch' & Heq & Hch').
    apply list_elem_of_bind in Hch' as (p' & Hch' & Hp').
    apply chunks_of_path_elem in Hch' as (text' & idx' & t' & _ & _ & ->).
    simpl in Heq. apply make_doc_id_inj in Heq as [Hrel _].
    apply Hp. rewrite Hrel.
    by apply (list_elem_of_fmap_2 (fun p : Path => as_posix (relative_parts p))).
  - by apply IH.
Qed.

Lemma doc_ids_unique_in_run_witness :
  NoDup ((fun p : Path => as_posix (relative_parts p))
           <$> yielded (iter_code_files ascii_lower [abc_file; hundred_file]
                 [py ".py"] false (Finite 2)))
  /\ NoDup (doc_id <$> yielded (discover_chunks ascii_lower
                                  [abc_file; hundred_file] (py "/repo")
                                  [py ".py"] false (Finite 2) 40 10
                                  (py "code-rag"))).
Proof.
  assert (H : NoDup ((fun p : Path => as_posix (relative_parts p))
                       <$> yielded (iter_code_files ascii_lower
                                      [abc_file; hundred_file] [py ".py"] false
                                      (Finite 2)))).
  { assert (Hsel : yielded (iter_code_files ascii_lower [abc_file; hundred_file]
                     [py ".py"] false (Finite 2)) = [abc_file; hundred_file])
      by (vm_compute; reflexivity).
    rewrite Hsel. simpl. apply NoDup_cons. split; [|apply NoDup_singleton].
    intros Hin%list_elem_of_singleton. vm_compute in Hin. discriminate Hin. }
  split; [exact H|].
  exact (doc_ids_unique_in_run ascii_lower [abc_file; hundred_file]
           (py "/repo") [py ".py"] false (Finite 2) 40 10 (py "code-rag") H).
Defined.

(** Every chunk of a run carries exactly the five metadata keys; its
    [source_dir] and [collection] are those of the run; its [path] is the
    relative path of a selected file and the prefix of its id; its line
    range is written in decimal; and its document is not empty. *)
Theorem chunk_metadata_shape (lower : pystr -> pystr) (tree : list Path)
  (source_dir : pystr) (exts : list pystr) (hidden : bool) (mb : pyfloat)
  (c o : Z) (collection : pystr) :
  Forall (fun ch : Chunk =>
            (forall key : pystr,
               is_Some (metadata ch !! key)
               <-> key ∈ [py "path"; py "start_line"; py "end_line";
                          py "source_dir"; py "collection"])
            /\ metadata ch !! py "source_dir" = Some source_dir
            /\ metadata ch !! py "collection" = Some collection
            /\ document ch <> []
            /\ exists (path : Path) (idx : nat) (start_line end_line : Z),
                 path ∈ yielded (iter_code_files lower tree exts hidden mb)
                 /\ metadata ch !! py "path"
                    = Some (as_posix (relative_parts path))
                 /\ doc_id ch
                    = as_posix (relative_parts path) ++ py "::"
                      ++ str_of_Z (Z.of_nat idx)
                 /\ metadata ch !! py "start_line" = Some (str_of_Z start_line)
                 /\ metadata ch !! py "end_line" = Some (str_of_Z end_line))
    (yielded (discover_chunks lower tree source_dir exts hidden mb c o
                collection)).
Proof.
  apply Forall_forall. intros ch Hch. unfold discover_chunks in Hch.
  cbn [yielded] in Hch.
  apply list_elem_of_bind in Hch as (path & Hch & Hpath).
  apply chunks_of_path_elem in Hch as (text & idx & t & Hread & Ht & ->).
  cbn [metadata document doc_id].
  split; [|split; [reflexivity|split; [reflexivity|split]]].
  - intros key. rewrite !lookup_insert_is_Some'.
    rewrite !elem_of_cons, elem_of_nil.
    pose proof (lookup_empty_is_Some (M := gmap pystr) (A := pystr) key).
    intuition congruence.
  - apply list_elem_of_lookup_2 in Ht.
    by apply chunk_text_elem in Ht as (w & _ & Hne & ->).
  - exists path, idx, t.1.2, t.2. done.
Qed.

Lemma chunk_metadata_shape_witness :
  length (yielded (discover_chunks ascii_lower [abc_file] (py "/repo")
                     [py ".py"] false (Finite 2) 40 10 (py "code-rag"))) = 1%nat
  /\ Forall (fun ch : Chunk =>
               metadata ch !! py "source_dir" = Some (py "/repo")
               /\ metadata ch !! py "collection" = Some (py "code-rag")
               /\ metadata ch !! py "other" = None)
       (yielded (discover_chunks ascii_lower [abc_file] (py "/repo") [py ".py"]
                   false (Finite 2) 40 10 (py "code-rag"))).
Proof.
  split; [vm_compute; reflexivity|].
  eapply Forall_impl;
    [exact (chunk_metadata_shape ascii_lower [abc_file] (py "/repo")
              [py ".py"] false (Finite 2) 40 10 (py "code-rag"))|].
  intros ch (Hkeys & Hsrc & Hcoll & _). split; [done|]. split; [done|].
  destruct (metadata ch !! py "other") eqn:Ho; [|done].
  assert (Hin : is_Some (metadata ch !! py "other")) by (rewrite Ho; eauto).
  apply Hkeys in Hin. exfalso.
  repeat (apply elem_of_cons in Hin as [Hin|Hin];
          [vm_compute in Hin; discriminate Hin|]).
  by apply elem_of_nil in Hin.
Defined.

End AssemblerMore.

(** ** More on the retriever and the tools *)

Module ToolsMore.
Import Retriever Tools Presenter Samples.

Section rows.
Variable str_of_float : pyfloat -> pystr.


End rows.



(** With a positive [top_k], [query_codebase] answers with a text and
    raises nothing as long as the database path can be resolved: a
    failure of the retrieval (opening the store, the query, a malformed
    reply) comes back as ["Query failed: <error>"], an empty result as
    the "No matches found" message, and in both cases nothing more is
    asked of the store. *)
Theorem query_codebase_reports_failures (str_of_float : pyfloat -> pystr)
  (w : world)
  (format_context : gmap pystr pystr -> pystr -> pyfloat -> Z -> pystr)
  (simple_summary : pystr -> list (gmap pystr pystr * pystr) -> pystr)
  (question collection db_dir : pystr) (top_k : Z) (log : list call) :
  0 < top_k ->
  (forall h, exists path, w h (Resolve db_dir) = inr path) ->
  exists (text : pystr) (log' : list call),
    query_codebase str_of_float w format_context simple_summary question
      top_k collection db_dir log = (inr text, log')
    /\ (forall (exc : exn) (log1 : list call),
          _query_collection_sync str_of_float w question db_dir collection
            top_k log = (inl exc, log1) ->
          text = py "Query failed: " ++ exn_str exc /\ log' = log1)
    /\ (forall log1 : list call,
          _query_collection_sync str_of_float w question db_dir collection
            top_k log = (inr [], log1) ->
          text
          = py "No matches found. Make sure the collection has been ingested."
          /\ log' = log1).
Proof.
  intros Hk Hres. unfold query_codebase, _validate_positive.
  destruct (Z.leb_spec top_k 0) as [|_]; [lia|].
  unfold bind at 1. unfold ret at 1. unfold bind at 1.
  unfold try_except, to_thread. unfold bind at 1.
  destruct (_query_collection_sync str_of_float w question db_dir collection
              top_k log) as [[exc|contexts] log1] eqn:Hq.
  - unfold ret. eexists _, _. split; [reflexivity|].
    split; [by intros exc' log1' [= <- <-]|by intros log1' [=]].
  - destruct contexts as [|ctx contexts].
    + unfold ret. eexists _, _. split; [reflexivity|].
      split; [by intros exc' log1' [=]|by intros log1' [= <-]].
    + unfold ret, bind, _resolve_db_dir, io.
      destruct (Hres log1) as [path Hpath]. rewrite Hpath.
      eexists _, _. split; [reflexivity|].
      split; [by intros exc' log1' [=]|by intros log1' [=]].
Qed.

Lemma query_codebase_reports_failures_witness :
  query_codebase (fun _ => py "?")
    (fun history c =>
       match c as c0 return exn + reply c0 with
       | Resolve db_dir => inr (py "/abs/" ++ db_dir)
       | Mkdir _ => inl (OtherException (py "read-only file system"))
       | Count _ _ => inr 0
       | Get _ _ _ _ _ =>
           inr {| g_ids := Absent; g_metadatas := Absent;
                  g_documents := Absent |}
       | Query _ _ _ _ => inr sample_results
       | _ => inr tt
       end)
    (fun _ _ _ _ => []) (fun _ _ => []) (py "q") 5 (py "code-rag") (py "db") []
  = (inr (py "Query failed: read-only file system"),
     [Resolve (py "db"); Mkdir (py "/abs/db")]).
Proof.
  destruct (query_codebase_reports_failures (fun _ => py "?")
              (fun history c =>
                 match c as c0 return exn + reply c0 with
                 | Resolve db_dir => inr (py "/abs/" ++ db_dir)
                 | Mkdir _ => inl (OtherException (py "read-only file system"))
                 | Count _ _ => inr 0
                 | Get _ _ _ _ _ =>
                     inr {| g_ids := Absent; g_metadatas := Absent;
                            g_documents := Absent |}
                 | Query _ _ _ _ => inr sample_results
                 | _ => inr tt
                 end)
              (fun _ _ _ _ => []) (fun _ _ => []) (py "q") (py "code-rag")
              (py "db") 5 [] ltac:(lia) ltac:(intros h; eexists; reflexivity))
    as (text & log' & Hrun & Hfail & _).
  rewrite Hrun. by destruct (Hfail _ _ eq_refl) as [-> ->].
Defined.

(** With a positive [limit] and an [offset] that is not negative,
    [list_rows] answers with a text and raises nothing as long as the
    database path can be resolved: a collection that does not exist gives
    the "was not found" message naming the collection and the resolved
    path, and any other failure gives ["Failed to fetch rows: <error>"]. *)
Theorem list_rows_reports_failures (str_of_float : pyfloat -> pystr)
  (w : world)
  (_format_rows_output :
     pystr -> pystr -> Z -> Z ->
     list (pystr * gmap pystr pystr * option pystr) -> bool -> pystr)
  (collection db_dir : pystr) (limit offset : Z) (include_documents : bool)
  (log : list call) :
  0 < limit -> 0 <= offset ->
  (forall h, exists path, w h (Resolve db_dir) = inr path) ->
  exists (text : pystr) (log' : list call),
    list_rows str_of_float w _format_rows_output collection db_dir limit
      offset include_documents log = (inr text, log')
    /\ (forall (msg : pystr) (log1 : list call),
          _list_rows_sync str_of_float w db_dir collection limit offset
            include_documents log
          = (inl (InvalidCollectionException msg), log1) ->
          exists path,
            w log1 (Resolve db_dir) = inr path
            /\ text = py "Collection '" ++ collection
                      ++ py "' was not found in " ++ path
                      ++ py ". Run the ingestion script first."
            /\ log' = log1 ++ [Resolve db_dir])
    /\ (forall (exc : exn) (log1 : list call),
          _list_rows_sync str_of_float w db_dir collection limit offset
            include_documents log = (inl exc, log1) ->
          (forall msg, exc <> InvalidCollectionException msg) ->
          text = py "Failed to fetch rows: " ++ exn_str exc /\ log' = log1).
Proof.
  intros Hl Ho Hres. unfold list_rows, _validate_positive.
  destruct (Z.leb_spec limit 0) as [|_]; [lia|].
  destruct (Z.ltb_spec offset 0) as [|_]; [lia|].
  unfold bind at 1. unfold ret at 1. unfold bind at 1. unfold ret at 1.
  unfold bind at 1. unfold try_except, to_thread. unfold bind at 1.
  destruct (_list_rows_sync str_of_float w db_dir collection limit offset
              include_documents log) as [[exc|[total rows]] log1] eqn:Hq.
  - destruct exc as [m|m|m|m|m];
      try (unfold ret; eexists _, _; split; [reflexivity|];
           split; [by intros msg log1' [=]|];
           by intros exc' log1' [= <- <-] _).
    unfold bind, _resolve_db_dir, io, ret.
    destruct (Hres log1) as [path Hpath]. rewrite Hpath.
    eexists _, _. split; [reflexivity|]. split.
    + intros msg log1' [= <- <-]. by exists path.
    + intros exc' log1' [= <- <-] Hne. by destruct (Hne m).
  - unfold ret, bind, _resolve_db_dir, io.
    destruct (Hres log1) as [path Hpath]. rewrite Hpath.
    eexists _, _. split; [reflexivity|].
    split; [by intros msg log1' [=]|by intros exc' log1' [=]].
Qed.

Lemma list_rows_reports_failures_witness :
  list_rows (fun _ => py "?")
    (fun history c =>
       match c as c0 return exn + reply c0 with
       | Resolve db_dir => inr (py "/abs/" ++ db_dir)
       | GetCollection _ _ =>
           inl (InvalidCollectionException (py "no such collection"))
       | Count _ _ => inr 0
       | Get _ _ _ _ _ =>
           inr {| g_ids := Absent; g_metadatas := Absent;
                  g_documents := Absent |}
       | Query _ _ _ _ => inr sample_results
       | _ => inr tt
       end)
    (fun _ _ _ _ _ _ => []) (py "code-rag") (py "db") 10 0 false []
  = (inr (py "Collection 'code-rag' was not found in /abs/db. Run the ingestion script first."),
     [Resolve (py "db"); PersistentClient (py "/abs/db");
      GetCollection (py "/abs/db") (py "code-rag"); Resolve (py "db")]).
Proof.
  destruct (list_rows_reports_failures (fun _ => py "?")
              (fun history c =>
                 match c as c0 return exn + reply c0 with
                 | Resolve db_dir => inr (py "/abs/" ++ db_dir)
                 | GetCollection _ _ =>
                     inl (InvalidCollectionException (py "no such collection"))
                 | Count _ _ => inr 0
                 | Get _ _ _ _ _ =>
                     inr {| g_ids := Absent; g_metadatas := Absent;
                            g_documents := Absent |}
                 | Query _ _ _ _ => inr sample_results
                 | _ => inr tt
                 end)
              (fun _ _ _ _ _ _ => []) (py "code-rag") (py "db") 10 0 false []
              ltac:(lia) ltac:(lia) ltac:(intros h; eexists; reflexivity))
    as (text & log' & Hrun & Hmissing & _).
  rewrite Hrun.
  destruct (Hmissing _ _ eq_refl) as (path & Hpath & -> & ->).
  by inversion Hpath.
Defined.

End ToolsMore.

(** ** The command-line helpers *)

Module CliSpec.
Import Cli PyStrFacts FileSelectorMore Samples.

Lemma normalize_dotted (parts : list pystr) :
  Forall (fun ext => starts_with_dot ext = true) (normalize parts).
Proof.
  induction parts as [|part rest IH]; simpl; [constructor|].
  destruct (truthy part); simpl; [|done].
  constructor; [|done]. by destruct (starts_with_dot part) eqn:Hdot.
Qed.

(** The parts between separators hold the other characters only. *)
Lemma split_on_Forall (Q : N -> Prop) (sep : N) (s : pystr) :
  Forall (fun c => c = sep \/ Q c) s -> Forall (Forall Q) (split_on sep s).
Proof.
  induction 1 as [|c s Hc _ IH]; simpl; [by repeat constructor|].
  destruct (N.eqb_spec c sep) as [->|Hne]; [by constructor|].
  destruct Hc as [->|Hc]; [done|].
  destruct (split_on sep s) as [|part parts]; [by repeat constructor|].
  apply Forall_cons_iff in IH as [Hpart Hparts].
  constructor; [by constructor|done].
Qed.

Lemma normalize_blank (lower : pystr -> pystr) (parts : list pystr) :
  lower [] = [] ->
  Forall (Forall (fun c => is_space c = true)) parts ->
  normalize ((fun p => lower (strip p)) <$> parts) = [].
Proof.
  intros Hlower. induction 1 as [|part rest Hpart _ IH]; [done|].
  rewrite fmap_cons. simpl. by rewrite strip_all_space, Hlower.
Qed.

(** Whatever is asked for, every extension [parse_extensions] returns
    begins with a dot, as the suffix of a path does. *)
Theorem parse_extensions_dotted (lower : pystr -> pystr)
  (raw : option pystr) :
  Forall (fun ext => starts_with_dot ext = true /\ ext <> [])
    (parse_extensions lower raw).
Proof.
  eapply Forall_impl with (P := fun ext => starts_with_dot ext = true).
  - unfold parse_extensions. destruct raw as [raw|].
    + destruct (truthy raw); simpl; [apply normalize_dotted|].
      unfold DEFAULT_EXTENSIONS. repeat constructor.
    + unfold DEFAULT_EXTENSIONS. repeat constructor.
  - intros ext Hdot. split; [done|]. by destruct ext.
Qed.

Lemma parse_extensions_dotted_witness :
  parse_extensions ascii_lower (Some (py "PY, .Md ,,rs"))
  = [py ".py"; py ".md"; py ".rs"]
  /\ Forall (fun ext => starts_with_dot ext = true /\ ext <> [])
       (parse_extensions ascii_lower (Some (py "PY, .Md ,,rs"))).
Proof.
  split; [vm_compute; reflexivity|].
  exact (parse_extensions_dotted ascii_lower (Some (py "PY, .Md ,,rs"))).
Defined.

(** An extensions argument made of commas and blanks only is not empty,
    so the defaults are not used, and it names no extension: the list is
    empty, and [iter_code_files] then selects the files it comes to
    whatever their suffix. *)
Theorem blank_extensions_select_every_suffix (lower : pystr -> pystr)
  (raw : pystr) (tree : list Path) (include_hidden : bool)
  (max_file_mb : pyfloat) :
  lower [] = [] ->
  raw <> [] ->
  Forall (fun c => c = 44%N \/ is_space c = true) raw ->
  parse_extensions lower (Some raw) = []
  /\ (forall (path : Path) (size : Z),
        path ∈ reached tree -> is_file path = inr true ->
        (include_hidden = false ->
         Forall (fun part => starts_with_dot part = false)
           (relative_parts path)) ->
        stat_size path = inr size ->
        int_gt size (scale (scale max_file_mb 1024) 1024) = false ->
        path ∈ yielded (iter_code_files lower tree
                          (parse_extensions lower (Some raw))
                          include_hidden max_file_mb)).
Proof.
  intros Hlower Hraw Hblank.
  assert (Hnone : parse_extensions lower (Some raw) = []).
  { unfold parse_extensions. destruct raw as [|c raw]; [done|]. simpl negb.
    cbv iota. apply normalize_blank; [done|]. by apply split_on_Forall. }
  split; [exact Hnone|].
  intros path size Hin Hfile Hhid Hstat Hgt. rewrite Hnone.
  apply iter_code_files_complete; [done|].
  split; [done|]. split; [done|]. split; [done|]. eauto.
Qed.

Lemma blank_extensions_select_every_suffix_witness :
  ascii_lower [] = [] /\ py " , ," <> []
  /\ parse_extensions ascii_lower (Some (py " , ,")) = []
  /\ upper_file ∈
     yielded (iter_code_files ascii_lower [upper_file]
       (parse_extensions ascii_lower (Some (py " , ,"))) false (Finite 2)).
Proof.
  assert (Hb : Forall (fun c => c = 44%N \/ is_space c = true) (py " , ,")).
  { repeat constructor; (by left) || (by right). }
  destruct (blank_extensions_select_every_suffix ascii_lower (py " , ,")
              [upper_file] false (Finite 2) eq_refl ltac:(discriminate) Hb)
    as [Hnone Hsel].
  split; [reflexivity|]. split; [discriminate|]. split; [exact Hnone|].
  apply (Hsel upper_file 7); try done; [simpl; left|by repeat constructor].
Defined.

End CliSpec.

(** ** The presenter of rows *)

Module PresenterSpec.
Import Presenter Retriever Tools StripFacts ToolsMore Samples.

Lemma join_snoc (sep : pystr) (parts : list pystr) (p : pystr) :
  exists prefix, join sep (parts ++ [p]) = prefix ++ p.
Proof.
  induction parts as [|q parts [prefix IH]]; simpl.
  - by exists [].
  - destruct (parts ++ [p]) as [|x xs] eqn:Hx; [by destruct parts|].
    exists (q ++ sep ++ prefix). rewrite IH. by rewrite <- !app_assoc.
Qed.

Lemma join_cons2 (sep p q : pystr) (rest : list pystr) :
  join sep (p :: q :: rest) = p ++ sep ++ join sep (q :: rest).
Proof. done. Qed.

Lemma join_header (a t : pystr) (rest : list pystr) :
  exists tail,
    join NL (a :: (py "Total rows: " ++ t) :: rest)
    = (a ++ NL ++ py "Total rows") ++ 58%N :: tail.
Proof.
  rewrite join_cons2. destruct rest as [|x rest].
  - exists (32%N :: t). by rewrite <- !app_assoc.
  - exists (32%N :: t ++ NL ++ join NL (x :: rest)).
    rewrite join_cons2, <- !app_assoc. reflexivity.
Qed.

(** [rstrip] leaves what comes before a character that is not
    whitespace. *)
Lemma rstrip_app_keep (a b : pystr) (c : N) :
  is_space c = false ->
  exists r, rstrip (a ++ c :: b) = a ++ c :: r.
Proof.
  intros Hc. destruct (rstrip_split (a ++ c :: b)) as (q & Hs & Hq & _).
  assert (Hlen : (length a < length (rstrip (a ++ c :: b)))%nat).
  { destruct (Nat.lt_ge_cases (length a)
                (length (rstrip (a ++ c :: b)))) as [|Hge]; [done|].
    exfalso.
    assert (Hin : (a ++ c :: b) !! length a = Some c)
      by (by rewrite lookup_app_r, Nat.sub_diag by lia).
    rewrite Hs, lookup_app_r in Hin by lia.
    apply list_elem_of_lookup_2 in Hin. rewrite Forall_forall in Hq.
    apply Hq in Hin. congruence. }
  assert (Htake : take (S (length a)) (rstrip (a ++ c :: b)) = a ++ [c]).
  { transitivity (take (S (length a)) (a ++ c :: b)).
    - rewrite Hs at 2. by rewrite take_app_le by lia.
    - rewrite take_app_ge by lia.
      replace (S (length a) - length a)%nat with 1%nat by lia. done. }
  exists (drop (S (length a)) (rstrip (a ++ c :: b))).
  rewrite <- (take_drop (S (length a)) (rstrip (a ++ c :: b))) at 1.
  rewrite Htake. by rewrite <- app_assoc.
Qed.

(** The output of [_format_rows_output] always begins with the line
    naming the collection and the database and the beginning of the line
    of the total; it never ends with whitespace; and for an empty window
    it is exactly those two lines, an empty line and the "No rows found"
    message. *)
Theorem format_rows_output_shape (db_dir collection_name : pystr)
  (total offset : Z) (rows : list (pystr * gmap pystr pystr * option pystr))
  (include_docs : bool) :
  (exists rest,
     _format_rows_output db_dir collection_name total offset rows include_docs
     = py "Collection '" ++ collection_name ++ py "' @ " ++ db_dir ++ NL
       ++ py "Total rows:" ++ rest)
  /\ (forall c,
        last (_format_rows_output db_dir collection_name total offset rows
                include_docs) = Some c ->
        is_space c = false)
  /\ (rows = [] ->
      _format_rows_output db_dir collection_name total offset rows include_docs
      = join NL [py "Collection '" ++ collection_name ++ py "' @ " ++ db_dir;
                 py "Total rows: " ++ str_of_Z total;
                 [];
                 py "No rows found for the requested window."]).
Proof.
  split; [|split].
  - unfold _format_rows_output. destruct rows as [|row rows]; cbn [app].
    + destruct (join_header
                  (py "Collection '" ++ collection_name ++ py "' @ " ++ db_dir)
                  (str_of_Z total)
                  [[]; py "No rows found for the requested window."])
        as [tail ->].
      exists tail. rewrite <- !app_assoc. reflexivity.
    + match goal with
      | |- context [join NL (?a :: (_ ++ ?t) :: ?rest)] =>
          destruct (join_header a t rest) as [tail ->]
      end.
      destruct (rstrip_app_keep
                  ((py "Collection '" ++ collection_name ++ py "' @ " ++ db_dir)
                   ++ NL ++ py "Total rows") tail 58%N eq_refl) as [r ->].
      exists r. rewrite <- !app_assoc. reflexivity.
  - intros c. unfold _format_rows_output. destruct rows as [|row rows].
    + destruct (join_snoc NL
                  [py "Collection '" ++ collection_name ++ py "' @ " ++ db_dir;
                   py "Total rows: " ++ str_of_Z total; []]
                  (py "No rows found for the requested window."))
        as [prefix ->].
      change (py "No rows found for the requested window.")
        with (py "No rows found for the requested window" ++ [46%N]).
      rewrite app_assoc, last_snoc. by intros [= <-].
    + apply rstrip_last.
  - by intros ->.
Qed.

Lemma format_rows_output_shape_witness :
  _format_rows_output (py "/abs/db") (py "code-rag") 2 0
    [(py "g.py::0",
      <[py "path" := py "g.py"]> (<[py "end_line" := py "3"]> ∅),
      Some (py " text "))]
    true
  = py "Collection 'code-rag' @ /abs/db" ++ NL
    ++ py "Total rows: 2" ++ NL ++ NL
    ++ py "[1] id=g.py::0" ++ NL
    ++ py "    end_line: 3" ++ NL
    ++ py "    path: g.py" ++ NL
    ++ py "    --- document ---" ++ NL
    ++ py "    text"
  /\ exists rest,
       _format_rows_output (py "/abs/db") (py "code-rag") 2 0 [] true
       = py "Collection '" ++ py "code-rag" ++ py "' @ " ++ py "/abs/db" ++ NL
         ++ py "Total rows:" ++ rest.
Proof.
  split; [vm_compute; reflexivity|].
  exact (proj1 (format_rows_output_shape (py "/abs/db") (py "code-rag") 2 0
                  [] true)).
Defined.

(** A window that holds no row (an offset beyond the rows, or an empty
    collection): with valid arguments, when the store answers and returns
    no ids, [list_rows] with the presenter [_format_rows_output] gives
    the header, the total and the "No rows found" message, and raises
    nothing, whatever the store returned for the metadatas. *)
Theorem list_rows_empty_window (str_of_float : pyfloat -> pystr) (w : world)
  (collection db_dir path : pystr) (limit offset total : Z)
  (include_documents : bool) (log : list call) (data : GetResult) :
  let include :=
    [py "metadatas"] ++ (if include_documents then [py "documents"] else []) in
  0 < limit -> 0 <= offset ->
  (forall h, w h (Resolve db_dir) = inr path) ->
  (forall h, w h (PersistentClient path) = inr tt) ->
  (forall h, w h (GetCollection path collection) = inr tt) ->
  (forall h, w h (Count path collection) = inr total) ->
  (forall h, w h (Get path collection limit offset include) = inr data) ->
  get_or_empty (g_ids data) = Some [] ->
  list_rows str_of_float w _format_rows_output collection db_dir limit offset
    include_documents log
  = (inr (join NL [py "Collection '" ++ collection ++ py "' @ " ++ path;
                   py "Total rows: " ++ str_of_Z total;
                   [];
                   py "No rows found for the requested window."]),
     log ++ [Resolve db_dir; PersistentClient path;
             GetCollection path collection; Count path collection;
             Get path collection limit offset include; Resolve db_dir]).
Proof.
  intros include Hl Ho Hres Hcli Hcoll Hcount Hget Hids.
  unfold list_rows, _validate_positive.
  destruct (Z.leb_spec limit 0) as [|_]; [lia|].
  destruct (Z.ltb_spec offset 0) as [|_]; [lia|].
  unfold _list_rows_sync, to_thread, try_except, _resolve_db_dir, bind, io,
    ret, lift.
  rewrite Hres, Hcli, Hcoll, Hcount. fold include. rewrite Hget, Hids.
  cbn [rows_loop]. rewrite Hres. rewrite <- !app_assoc. reflexivity.
Qed.

Lemma list_rows_empty_window_witness :
  list_rows (fun _ => py "?") sample_world _format_rows_output (py "code-rag")
    (py "db") 10 50 false []
  = (inr (py "Collection 'code-rag' @ /abs/db" ++ NL
          ++ py "Total rows: 2" ++ NL ++ NL
          ++ py "No rows found for the requested window."),
     [Resolve (py "db"); PersistentClient (py "/abs/db");
      GetCollection (py "/abs/db") (py "code-rag");
      Count (py "/abs/db") (py "code-rag");
      Get (py "/abs/db") (py "code-rag") 10 50 [py "metadatas"];
      Resolve (py "db")]).
Proof.
  rewrite (list_rows_empty_window (fun _ => py "?") sample_world
             (py "code-rag") (py "db") (py "/abs/db") 10 50 2 false []
             {| g_ids := Present []; g_metadatas := Present [];
                g_documents := IsNone |}
             ltac:(lia) ltac:(lia) ltac:(done) ltac:(done) ltac:(done)
             ltac:(done) ltac:(done) eq_refl).
  reflexivity.
Defined.

End PresenterSpec.

(** ** The ingestion command *)

Module IngestSpec.
Import Chunker Batching Assembler Cli Run Ingest RunSamples Samples.








(** The facts of a run whose operations are known. *)
Ltac no_delete :=
  intros _ ?;
  repeat (apply not_elem_of_cons; split; [done|]); apply not_elem_of_nil.
Ltac run_facts :=
  split; [done|]; split; [done|];
  split; [first [done | no_delete]|intros ? [= <-]; by eexists].

Section run.
Variable e : env.


(** What [ensure_collection] does holds no upsert, and it fails with an
    exception only. *)
Lemma ensure_collection_run (db name : pystr) (reset : bool)
  (log : list op) :
  let run := ensure_collection e db name reset log in
  exists events,
    run.2 = log ++ events
    /\ upserts events = []
    /\ (reset = false -> forall name', OpDeleteCollection db name' ∉ events)
    /\ (forall f, run.1 = inl f -> exists x, f = Raised x).
Proof.
  unfold ensure_collection, bind, io, print, ret.
  destruct (e log (OpMkdir db)) as [x|[]].
  { exists [OpMkdir db]. run_facts. }
  destruct (e (log ++ [OpMkdir db]) (OpClient db)) as [x|[]].
  { exists [OpMkdir db; OpClient db]. rewrite <- !app_assoc. run_facts. }
  destruct reset.
  - destruct (e ((log ++ [OpMkdir db]) ++ [OpClient db])
                (OpDeleteCollection db name)) as [x|[]].
    + destruct x;
        try (exists [OpMkdir db; OpClient db; OpDeleteCollection db name];
             rewrite <- !app_assoc; by run_facts).
      destruct (e _ (OpGetOrCreateCollection db name)) as [x|[]];
        exists [OpMkdir db; OpClient db; OpDeleteCollection db name;
                OpGetOrCreateCollection db name];
        rewrite <- !app_assoc; run_facts.
    + destruct (e _ (OpGetOrCreateCollection db name)) as [x|[]];
        exists [OpMkdir db; OpClient db; OpDeleteCollection db name;
                OpPrint (py "Deleted existing collection '" ++ name
                           ++ py "'.");
                OpGetOrCreateCollection db name];
        rewrite <- !app_assoc; run_facts.
  - destruct (e _ (OpGetOrCreateCollection db name)) as [x|[]];
      exists [OpMkdir db; OpClient db; OpGetOrCreateCollection db name];
      rewrite <- !app_assoc; run_facts.
Qed.
End run.





(** Resetting a collection. Without [reset] no collection is deleted.
    With [reset], a collection that does not exist is no error: the
    [InvalidCollectionException] of the deletion is swallowed, nothing
    is printed and the collection is created; any other exception of the
    deletion ends [ensure_collection] before the collection is
    created. *)
Theorem ensure_collection_reset (e : env) (db name : pystr) (reset : bool)
  (log : list op) :
  let run := ensure_collection e db name reset log in
  let opened := log ++ [OpMkdir db; OpClient db] in
  (reset = false ->
   forall name', OpDeleteCollection db name' ∉ drop (length log) run.2)
  /\ (reset = true ->
      e log (OpMkdir db) = inr tt ->
      e (log ++ [OpMkdir db]) (OpClient db) = inr tt ->
      forall x, e opened (OpDeleteCollection db name) = inl x ->
      match x with
      | InvalidCollectionException _ =>
          run = (match e (opened ++ [OpDeleteCollection db name])
                         (OpGetOrCreateCollection db name) with
                 | inr a => inr a
                 | inl y => inl (Raised y)
                 end,
                 opened ++ [OpDeleteCollection db name;
                            OpGetOrCreateCollection db name])
      | _ => run = (inl (Raised x), opened ++ [OpDeleteCollection db name])
      end).
Proof.
  intros run opened. split.
  - intros Hreset name'.
    destruct (ensure_collection_run e db name reset log)
      as (evs & Hlog & _ & Hdel & _).
    fold run in Hlog. rewrite Hlog, drop_app_length. by apply Hdel.
  - intros -> Hmk Hcl x Hdel. subst run opened.
    unfold ensure_collection, bind, io, print, ret.
    rewrite Hmk, Hcl. rewrite <- !app_assoc in *. cbn [app] in *.
    rewrite Hdel. destruct x; rewrite <- ?app_assoc; try done.
Qed.

Lemma ensure_collection_reset_witness :
  ensure_collection sample_env (py "/abs/db") (py "code-rag") true []
  = (inr tt,
     [OpMkdir (py "/abs/db"); OpClient (py "/abs/db");
      OpDeleteCollection (py "/abs/db") (py "code-rag");
      OpGetOrCreateCollection (py "/abs/db") (py "code-rag")])
  /\ ensure_collection locked_env (py "/abs/db") (py "code-rag") true []
     = (inl (Raised (OtherException (py "database is locked"))),
        [OpMkdir (py "/abs/db"); OpClient (py "/abs/db");
         OpDeleteCollection (py "/abs/db") (py "code-rag")]).
Proof.
  split.
  - exact (proj2 (ensure_collection_reset sample_env (py "/abs/db")
                    (py "code-rag") true [])
             eq_refl eq_refl eq_refl
             (InvalidCollectionException (py "no such collection")) eq_refl).
  - exact (proj2 (ensure_collection_reset locked_env (py "/abs/db")
                    (py "code-rag") true [])
             eq_refl eq_refl eq_refl
             (OtherException (py "database is locked")) eq_refl).
Defined.

End IngestSpec.

(** ** The listing of collections *)

Module ListingSpec.
Import Run Listing RunSamples.

Section listing.
Variable str_of_float : pyfloat -> pystr.
Variable e : env.

(** The loop over the collections never fails: it counts each
    collection once, in order. *)
Lemma entries_loop_run (db : pystr) (collections : list CollectionInfo)
  (log : list op) :
  exists entries,
    entries_loop str_of_float e db collections log
    = (inr entries,
       log ++ ((fun c => OpCount db (ci_name c)) <$> collections))
    /\ e_name <$> entries = ci_name <$> collections
    /\ forall (i : nat) (c : CollectionInfo) (entry : Entry),
         collections !! i = Some c -> entries !! i = Some entry ->
         e_count entry
         = match e (log ++ ((fun c => OpCount db (ci_name c))
                              <$> take i collections))
                   (OpCount db (ci_name c)) with
           | inr count => str_of_Z count
           | inl _ => py "0"
           end.
Proof.
  revert log. induction collections as [|c rest IH]; intros log.
  - exists []. simpl. by rewrite app_nil_r.
  - cbn [entries_loop]. unfold bind at 1. unfold io.
    destruct (IH (log ++ [OpCount db (ci_name c)]))
      as (entries & Hrun & Hnames & Hcounts).
    destruct (e log (OpCount db (ci_name c))) as [x|count] eqn:Hc;
      cbv beta iota; unfold bind, ret; rewrite Hrun; cbv beta iota;
      eexists; rewrite fmap_cons, <- app_assoc;
      (split; [reflexivity|]);
      (split; [by rewrite !fmap_cons, Hnames|]);
      intros [|i] c' entry Hi He; simpl in Hi, He;
      try (injection Hi as <-; injection He as <-; cbn [e_count take];
           by rewrite fmap_nil, app_nil_r, Hc);
      rewrite (Hcounts i c' entry Hi He); cbn [take];
      by rewrite fmap_cons, <- app_assoc.
Qed.
End listing.

(** A collection whose rows cannot be counted does not stop the listing:
    when the database directory exists and the store lists its
    collections, [_list_collections_sync] returns one entry for each
    collection, in order and under its name, and the count of an entry is
    the count the store gave, or [0] when counting raised. *)
Theorem list_collections_sync_counts (str_of_float : pyfloat -> pystr)
  (e : env) (db_dir path : pystr) (collections : list CollectionInfo)
  (log : list op) :
  let opened :=
    log ++ [OpResolve db_dir; OpExists path; OpClient path;
            OpListCollections path] in
  e log (OpResolve db_dir) = inr path ->
  e (log ++ [OpResolve db_dir]) (OpExists path) = inr true ->
  e (log ++ [OpResolve db_dir; OpExists path]) (OpClient path) = inr tt ->
  e (log ++ [OpResolve db_dir; OpExists path; OpClient path])
    (OpListCollections path) = inr collections ->
  exists entries,
    _list_collections_sync str_of_float e db_dir log
    = (inr entries,
       opened ++ ((fun c => OpCount path (ci_name c)) <$> collections))
    /\ e_name <$> entries = ci_name <$> collections
    /\ forall (i : nat) (c : CollectionInfo) (entry : Entry),
         collections !! i = Some c -> entries !! i = Some entry ->
         e_count entry
         = match e (opened ++ ((fun c => OpCount path (ci_name c))
                                 <$> take i collections))
                   (OpCount path (ci_name c)) with
           | inr count => str_of_Z count
           | inl _ => py "0"
           end.
Proof.
  intros opened Hres Hex Hcl Hlist.
  unfold _list_collections_sync, bind, io, ret.
  rewrite Hres. cbv beta iota. rewrite Hex. cbn [negb]. cbv beta iota.
  rewrite <- !app_assoc. cbn [app]. rewrite Hcl. cbv beta iota.
  rewrite <- ?app_assoc. cbn [app]. rewrite Hlist. cbv beta iota.
  fold opened. apply entries_loop_run.
Qed.

Lemma list_collections_sync_counts_witness :
  exists entries,
    _list_collections_sync (fun _ => py "?") sample_env (py "db") []
    = (inr entries,
       [OpResolve (py "db"); OpExists (py "/abs/db"); OpClient (py "/abs/db");
        OpListCollections (py "/abs/db");
        OpCount (py "/abs/db") (py "broken");
        OpCount (py "/abs/db") (py "code-rag")])
    /\ e_name <$> entries = [py "broken"; py "code-rag"]
    /\ e_count <$> entries = [py "0"; py "3"].
Proof.
  destruct (list_collections_sync_counts (fun _ => py "?") sample_env
              (py "db") (py "/abs/db")
              [ {| ci_name := py "broken"; ci_metadata := None |};
                {| ci_name := py "code-rag";
                   ci_metadata := Some [(py "kind", VStr (py "code-rag"))] |} ]
              [] eq_refl eq_refl eq_refl eq_refl)
    as (entries & Hrun & Hnames & Hcounts).
  exists entries. split; [exact Hrun|]. split; [exact Hnames|].
  destruct entries as [|e1 [|e2 [|e3 es]]]; try done.
  rewrite !fmap_cons.
  rewrite (Hcounts 0%nat _ e1 eq_refl eq_refl).
  rewrite (Hcounts 1%nat _ e2 eq_refl eq_refl).
  reflexivity.
Defined.

(** A database directory that does not exist is not an error for
    [list_collections]: no store is opened, and the answer is the
    sentence that no collections were found in the resolved path. *)
Theorem list_collections_missing_directory (str_of_float : pyfloat -> pystr)
  (e : env) (db_dir path path' : pystr) (log : list op) :
  e log (OpResolve db_dir) = inr path ->
  e (log ++ [OpResolve db_dir]) (OpExists path) = inr false ->
  e (log ++ [OpResolve db_dir; OpExists path]) (OpResolve db_dir)
  = inr path' ->
  list_collections str_of_float e db_dir log
  = (inr (py "No collections found in " ++ path'
          ++ py ". Ingest code with chromadb_code_rag.py first."),
     log ++ [OpResolve db_dir; OpExists path; OpResolve db_dir]).
Proof.
  intros Hres Hex Hres'.
  unfold list_collections, _list_collections_sync, bind, io, ret.
  rewrite Hres. cbv beta iota. rewrite Hex. cbn [negb]. cbv beta iota.
  rewrite <- ?app_assoc. cbn [app]. rewrite Hres'. cbv beta iota.
  by rewrite <- ?app_assoc.
Qed.

Lemma list_collections_missing_directory_witness :
  list_collections (fun _ => py "?") missing_env (py "db") []
  = (inr (py "No collections found in /abs/db"
          ++ py ". Ingest code with chromadb_code_rag.py first."),
     [OpResolve (py "db"); OpExists (py "/abs/db"); OpResolve (py "db")]).
Proof.
  exact (list_collections_missing_directory (fun _ => py "?") missing_env
           (py "db") (py "/abs/db") (py "/abs/db") []
           eq_refl eq_refl eq_refl).
Defined.

End ListingSpec.
